(** * Incident relay: Telegram bot, incident store, dashboard script

    A shallow embedding of [server.js] (the Express / Telegram / MongoDB /
    Socket.IO process) and of the two dashboard scripts that ship with it,
    followed by the properties of the incident life cycle.

    Conventions.
    - Asynchronous handlers are run to completion one at a time; an awaited
      call that rejects is an exception ([Throw]) of the handler monad.
    - Whether an external call (Telegram, MongoDB) fails is decided by a
      script of booleans carried in the world, one entry per call.
    - JavaScript numbers that are identifiers are [Z]; coordinates are [Q].
    - A MongoDB [ObjectId] is represented by its canonical (lower case,
      24 digit) hexadecimal string, which is also its JSON form. *)

From Stdlib Require Import ZArith NArith QArith String Ascii List.
From stdpp Require Import base gmap strings list sets pretty.
Import ListNotations.

(* stdpp's set_solver clears hypotheses by name; silence its notes. *)
#[local] Set Warnings "-clear-no-such-hyp".

Local Open Scope string_scope.
Local Open Scope Z_scope.
Local Open Scope list_scope.

(* ================================================================== *)
(** * JavaScript values and library functions                          *)
(* ================================================================== *)

(** Instants ([Date]) are milliseconds since the epoch. *)
Definition Date := Z.

(** A MongoDB identifier, as its hexadecimal string. *)
Definition ObjectId := string.

(** Functions of the JavaScript runtime and of the bson library that the
    program calls and whose result depends on the locale, on number
    formatting or on the library version.  [ObjectId_fromString s] is
    [new ObjectId(s)]: [None] when the constructor throws. *)
Class JsRuntime := {
  Number_toString : Q -> string;
  Date_toLocaleTimeString : Date -> string;
  Date_toLocaleString : Date -> string;
  Date_toISOString : Date -> string;
  ObjectId_fromString : string -> option ObjectId
}.

Module JS.

(** [a || b] on possibly undefined strings: the empty string is falsy. *)
Definition or (a b : option string) : option string :=
  match a with
  | Some EmptyString => b
  | Some s => Some s
  | None => b
  end.

(** [a || 'lit'] where the right operand is a literal. *)
Definition or_lit (a : option string) (lit : string) : string :=
  match JS.or a (Some lit) with
  | Some s => s
  | None => lit
  end.

(** String conversion as done by [+=] and by template literals. *)
Definition to_string (a : option string) : string :=
  match a with
  | Some s => s
  | None => "undefined"
  end.

(** [s.split(sep)] for a one character separator. *)
Fixpoint split (sep : ascii) (s : string) : list string :=
  match s with
  | EmptyString => [EmptyString]
  | String c s' =>
      if Ascii.eqb c sep then EmptyString :: split sep s'
      else match split sep s' with
           | p :: ps => String c p :: ps
           | [] => [String c EmptyString]
           end
  end.

(** [s.substring(0, n)]. *)
Definition substring_0 (n : nat) (s : string) : string :=
  String.substring 0 n s.

(** [s.toLowerCase()] on ASCII letters. *)
Definition lower_ascii (c : ascii) : ascii :=
  let n := nat_of_ascii c in
  if (65 <=? n)%nat && (n <=? 90)%nat then ascii_of_nat (n + 32) else c.

Fixpoint toLowerCase (s : string) : string :=
  match s with
  | EmptyString => EmptyString
  | String c s' => String (lower_ascii c) (toLowerCase s')
  end.

(** [a === 'lit'] where [a] may be undefined. *)
Definition eq_lit (a : option string) (lit : string) : bool :=
  match a with
  | Some s => String.eqb s lit
  | None => false
  end.

(** The line feed of ["\n"]. *)
Definition LF : string := String (ascii_of_nat 10) EmptyString.

(** [`${n}`] for an integer. *)
Definition int_to_string `{JsRuntime} (n : Z) : string :=
  Number_toString (inject_Z n).

End JS.

(* ================================================================== *)
(** * ObjectId (bson)                                                  *)
(* ================================================================== *)

Module ObjectIds.

Definition is_hex (c : ascii) : bool :=
  let n := nat_of_ascii c in
  ((48 <=? n) && (n <=? 57) || (97 <=? n) && (n <=? 102)
   || (65 <=? n) && (n <=? 70))%nat.

Definition hex_digit (d : N) : ascii :=
  if (d <? 10)%N then ascii_of_N (48 + d) else ascii_of_N (87 + d).

(** The [k] low hexadecimal digits of [n], most significant first,
    in front of [acc]. *)
Fixpoint hex_acc (k : nat) (n : N) (acc : string) : string :=
  match k with
  | O => acc
  | S k' => hex_acc k' (n / 16)%N (String (hex_digit (n mod 16)%N) acc)
  end.

(** A constructor that accepts the 24 character hexadecimal strings (in
    either case) and throws on anything else. *)
Definition of_string (s : string) : option ObjectId :=
  if (String.length s =? 24)%nat && forallb is_hex (list_ascii_of_string s)
  then Some (JS.toLowerCase s) else None.

(** The identifier the driver generates for the [n]-th insertion. *)
Definition generate (n : N) : ObjectId := hex_acc 24 n EmptyString.

End ObjectIds.

(* ================================================================== *)
(** * Data model                                                       *)
(* ================================================================== *)

(** A document of the [incidents] collection.  [last_updated] is absent
    until the first status update. *)
Record Incident := {
  _id : ObjectId;
  reporter_id : Z;
  reporter_name : string;
  latitude : Q;
  longitude : Q;
  status : string;
  telegram_message_id : Z;
  telegram_chat_id : Z;
  timestamp : Date;
  last_updated : option Date
}.

(** Telegram objects, with the fields the handlers read. *)
Record User := {
  user_id : Z;
  first_name : string;
  username : option string
}.

Record Location := {
  loc_latitude : Q;
  loc_longitude : Q
}.

Record InlineKeyboardButton := {
  button_text : string;
  callback_data : string
}.

(** [{ inline_keyboard: [[...], [...]] }] *)
Definition InlineKeyboardMarkup := list (list InlineKeyboardButton).

Record Message := {
  message_id : Z;
  chat_id : Z;
  text : option string;
  caption : option string;
  location : option Location;
  reply_markup : option InlineKeyboardMarkup
}.

(** The [msg] of a ['location'] event: a private message that carries a
    location. *)
Record LocationMessage := {
  lm_chat_id : Z;
  lm_from : User;
  lm_location : Location
}.

Record CallbackQuery := {
  cq_id : string;
  cq_from : User;
  cq_message : Message;
  cq_data : string
}.

(** Events broadcast with [io.emit] (and [socket.emit] for the snapshot). *)
Inductive Event :=
| new_incident (incident : Incident)
| incident_updated (incident : Incident)
| incident_deleted (incidentId : string)
| initial_incidents (initialIncidents : list Incident).

(** JSON as sent by [res.json] / [res.send]. *)
#[warnings="-register-all"]
Inductive JSON :=
| JNumber (q : Q)
| JString (s : string)
| JArray (items : list JSON)
| JObject (members : list (string * JSON)).

Inductive Body :=
| BodyJSON (j : JSON)
| BodyText (s : string).

Record Response := {
  status_code : Z;
  body : Body
}.

(* ================================================================== *)
(** * The world the server runs in                                     *)
(* ================================================================== *)

Record World := {
  incidents : list Incident;         (* db.collection('incidents') *)
  oid_counter : N;                   (* ObjectIds generated so far *)
  chats : list Message;              (* messages standing in Telegram chats *)
  next_message_id : Z;               (* Telegram's message id counter *)
  answers : list (string * string);  (* answerCallbackQuery(id, {text}) *)
  emitted : list Event;              (* io.emit, oldest first *)
  clock : Date;                      (* what [new Date()] reads *)
  faults : list bool                 (* true: the next external call fails *)
}.

Definition set_incidents (f : list Incident -> list Incident) (w : World) : World :=
  {| incidents := f (incidents w); oid_counter := oid_counter w;
     chats := chats w; next_message_id := next_message_id w;
     answers := answers w; emitted := emitted w; clock := clock w;
     faults := faults w |}.

Definition set_oid_counter (n : N) (w : World) : World :=
  {| incidents := incidents w; oid_counter := n;
     chats := chats w; next_message_id := next_message_id w;
     answers := answers w; emitted := emitted w; clock := clock w;
     faults := faults w |}.

Definition set_chats (f : list Message -> list Message) (w : World) : World :=
  {| incidents := incidents w; oid_counter := oid_counter w;
     chats := f (chats w); next_message_id := next_message_id w;
     answers := answers w; emitted := emitted w; clock := clock w;
     faults := faults w |}.

Definition set_next_message_id (n : Z) (w : World) : World :=
  {| incidents := incidents w; oid_counter := oid_counter w;
     chats := chats w; next_message_id := n;
     answers := answers w; emitted := emitted w; clock := clock w;
     faults := faults w |}.

Definition set_answers (f : list (string * string) -> list (string * string))
    (w : World) : World :=
  {| incidents := incidents w; oid_counter := oid_counter w;
     chats := chats w; next_message_id := next_message_id w;
     answers := f (answers w); emitted := emitted w; clock := clock w;
     faults := faults w |}.

Definition set_emitted (f : list Event -> list Event) (w : World) : World :=
  {| incidents := incidents w; oid_counter := oid_counter w;
     chats := chats w; next_message_id := next_message_id w;
     answers := answers w; emitted := f (emitted w); clock := clock w;
     faults := faults w |}.

Definition set_faults (fs : list bool) (w : World) : World :=
  {| incidents := incidents w; oid_counter := oid_counter w;
     chats := chats w; next_message_id := next_message_id w;
     answers := answers w; emitted := emitted w; clock := clock w;
     faults := fs |}.

(** ** Handler monad: state and exceptions *)

Inductive Result (A : Type) :=
| Ok (a : A)
| Throw.
Arguments Ok {A} a.
Arguments Throw {A}.

Definition M (A : Type) : Type := World -> Result A * World.

Definition ret {A} (a : A) : M A := fun w => (Ok a, w).

Definition bind {A B} (c : M A) (k : A -> M B) : M B :=
  fun w => match c w with
           | (Ok a, w') => k a w'
           | (Throw, w') => (Throw, w')
           end.

Definition throw {A} : M A := fun w => (Throw, w).

(** [try { c } catch (error) { h }]: effects of [c] before the exception
    stay. *)
Definition try_catch {A} (c h : M A) : M A :=
  fun w => match c w with
           | (Ok a, w') => (Ok a, w')
           | (Throw, w') => h w'
           end.

(** A promise that is not awaited: its rejection is not seen by the
    caller. *)
Definition no_await {A} (c : M A) : M unit :=
  fun w => (Ok tt, snd (c w)).

Definition gets {A} (f : World -> A) : M A := fun w => (Ok (f w), w).
Definition modify (f : World -> World) : M unit := fun w => (Ok tt, f w).

(** An external call: takes the next entry of the fault script. *)
Definition external : M unit :=
  fun w => match faults w with
           | [] => (Ok tt, w)
           | failing :: rest =>
               (if failing : bool then Throw else Ok tt, set_faults rest w)
           end.

Declare Scope handler_scope.
Delimit Scope handler_scope with handler.
Notation "x <- c ;; k" := (bind c (fun x => k))
  (at level 100, c at next level, right associativity) : handler_scope.
Notation "c ;;; k" := (bind c (fun _ => k))
  (at level 100, right associativity) : handler_scope.
Local Open Scope handler_scope.

(* ================================================================== *)
(** * MongoDB: the [incidents] collection                              *)
(* ================================================================== *)

Module Collection.

(** [findOne(filter)]: the first matching document. *)
Definition findOne (filter : Incident -> bool) (docs : list Incident)
  : option Incident :=
  List.find filter docs.

(** [deleteOne(filter)]: removes the first matching document; the first
    component is [deletedCount]. *)
Fixpoint deleteOne (filter : Incident -> bool) (docs : list Incident)
  : Z * list Incident :=
  match docs with
  | [] => (0, [])
  | d :: rest =>
      if filter d then (1, rest)
      else let r := deleteOne filter rest in (fst r, d :: snd r)
  end.

(** [findOneAndUpdate(filter, update, { returnDocument: 'after' })]: the
    first matching document is replaced by its update, which is also the
    [value] of the result; without a match nothing is written. *)
Fixpoint findOneAndUpdate (filter : Incident -> bool)
    (update : Incident -> Incident) (docs : list Incident)
  : option Incident * list Incident :=
  match docs with
  | [] => (None, [])
  | d :: rest =>
      if filter d then (Some (update d), update d :: rest)
      else let r := findOneAndUpdate filter update rest in
           (fst r, d :: snd r)
  end.

End Collection.

(** [{ _id: oid }] *)
Definition by_id (oid : ObjectId) (d : Incident) : bool :=
  String.eqb (_id d) oid.

(** [{ telegram_message_id: mid, telegram_chat_id: cid }] *)
Definition by_channel_message (mid cid : Z) (d : Incident) : bool :=
  (telegram_message_id d =? mid) && (telegram_chat_id d =? cid).

(** [{ $set: { status: newStatus, last_updated: now } }] *)
Definition set_status (newStatus : string) (now : Date) (d : Incident)
  : Incident :=
  {| _id := _id d;
     reporter_id := reporter_id d;
     reporter_name := reporter_name d;
     latitude := latitude d;
     longitude := longitude d;
     status := newStatus;
     telegram_message_id := telegram_message_id d;
     telegram_chat_id := telegram_chat_id d;
     timestamp := timestamp d;
     last_updated := Some now |}.

(** The collection operations as awaited calls on the world. *)

(** [find({}).toArray()] *)
Definition db_find_all : M (list Incident) :=
  external ;;; gets incidents.

Definition db_findOne (filter : Incident -> bool) : M (option Incident) :=
  external ;;; gets (fun w => Collection.findOne filter (incidents w)).

Definition db_deleteOne (filter : Incident -> bool) : M Z :=
  external ;;;
  docs <- gets incidents ;;
  let r := Collection.deleteOne filter docs in
  modify (set_incidents (fun _ => snd r)) ;;;
  ret (fst r).

Definition db_findOneAndUpdate (filter : Incident -> bool)
    (update : Incident -> Incident) : M (option Incident) :=
  external ;;;
  docs <- gets incidents ;;
  let r := Collection.findOneAndUpdate filter update docs in
  modify (set_incidents (fun _ => snd r)) ;;;
  ret (fst r).

(** [insertOne(doc)] for a document without [_id]: the driver generates
    one, and the unique index on [_id] refuses a duplicate.  The document
    is given as a function of the identifier it receives. *)
Definition db_insertOne (doc : ObjectId -> Incident) : M ObjectId :=
  external ;;;
  n <- gets oid_counter ;;
  let insertedId := ObjectIds.generate n in
  modify (set_oid_counter (n + 1)%N) ;;;
  docs <- gets incidents ;;
  if existsb (by_id insertedId) docs then throw
  else modify (set_incidents (fun l => l ++ [doc insertedId])) ;;;
       ret insertedId.

(** [new ObjectId(s)] inside a handler. *)
Definition new_ObjectId `{JsRuntime} (s : string) : M ObjectId :=
  match ObjectId_fromString s with
  | Some oid => ret oid
  | None => throw
  end.

(* ================================================================== *)
(** * Telegram Bot API                                                 *)
(* ================================================================== *)

(** A message is posted: Telegram numbers it and returns it. *)
Definition post (m : Z -> Message) : M Message :=
  external ;;;
  n <- gets next_message_id ;;
  modify (set_next_message_id (n + 1)) ;;;
  modify (set_chats (fun l => l ++ [m n])) ;;;
  ret (m n).

Definition sendLocation (chatId : Z) (lat lon : Q) : M Message :=
  post (fun n => {| message_id := n; chat_id := chatId; text := None;
                    caption := None;
                    location := Some {| loc_latitude := lat;
                                        loc_longitude := lon |};
                    reply_markup := None |}).

Definition sendMessage (chatId : Z) (txt : string)
    (markup : option InlineKeyboardMarkup) : M Message :=
  post (fun n => {| message_id := n; chat_id := chatId; text := Some txt;
                    caption := None; location := None;
                    reply_markup := markup |}).

Definition is_message (chatId messageId : Z) (m : Message) : bool :=
  (chat_id m =? chatId) && (message_id m =? messageId).

Definition edited (txt : string) (markup : option InlineKeyboardMarkup)
    (m : Message) : Message :=
  {| message_id := message_id m; chat_id := chat_id m; text := Some txt;
     caption := caption m; location := location m;
     reply_markup := markup |}.

Fixpoint edit_first (chatId messageId : Z) (f : Message -> Message)
    (l : list Message) : list Message :=
  match l with
  | [] => []
  | m :: rest =>
      if is_message chatId messageId m then f m :: rest
      else m :: edit_first chatId messageId f rest
  end.

(** [editMessageText(text, { chat_id, message_id, reply_markup })]: the
    text is replaced and the inline keyboard becomes the given one (none
    when [reply_markup] is undefined); editing a message that does not
    exist is an API error. *)
Definition editMessageText (txt : string) (chatId messageId : Z)
    (markup : option InlineKeyboardMarkup) : M unit :=
  external ;;;
  l <- gets chats ;;
  if existsb (is_message chatId messageId) l
  then modify (set_chats (edit_first chatId messageId (edited txt markup)))
  else throw.

(** [answerCallbackQuery(queryId, { text })]: a notice shown to the user
    who pressed the button; no message is posted. *)
Definition answerCallbackQuery (queryId txt : string) : M unit :=
  external ;;;
  modify (set_answers (fun l => l ++ [(queryId, txt)])).

(** [new Date()] *)
Definition new_Date : M Date := gets clock.

(** [io.emit(event, payload)] *)
Definition io_emit (e : Event) : M unit :=
  modify (set_emitted (fun l => l ++ [e])).

(* ================================================================== *)
(** * server.js                                                        *)
(* ================================================================== *)

(** JSON form of a stored document ([ObjectId] and [Date] become
    strings).  Members are compared by name, not by position. *)
Definition Incident_toJSON `{JsRuntime} (i : Incident) : JSON :=
  JObject
    ([("_id", JString (_id i));
      ("reporter_id", JNumber (inject_Z (reporter_id i)));
      ("reporter_name", JString (reporter_name i));
      ("latitude", JNumber (latitude i));
      ("longitude", JNumber (longitude i));
      ("status", JString (status i));
      ("telegram_message_id", JNumber (inject_Z (telegram_message_id i)));
      ("telegram_chat_id", JNumber (inject_Z (telegram_chat_id i)));
      ("timestamp", JString (Date_toISOString (timestamp i)))]
     ++ match last_updated i with
        | Some d => [("last_updated", JString (Date_toISOString d))]
        | None => []
        end).

(** Payload of an event as it goes over the socket. *)
Definition Event_toJSON `{JsRuntime} (e : Event) : JSON :=
  match e with
  | new_incident i => Incident_toJSON i
  | incident_updated i => Incident_toJSON i
  | incident_deleted s => JString s
  | initial_incidents l => JArray (map Incident_toJSON l)
  end.

Definition message_body (s : string) : Body :=
  BodyJSON (JObject [("message", JString s)]).

Section Server.

Context `{JsRuntime}.

(** [process.env.TELEGRAM_GROUP_ID], as the chat id Telegram reports. *)
Variable TELEGRAM_GROUP_ID : Z.

(** [app.get('/incidents')] *)
Definition get_incidents : M Response :=
  try_catch
    (docs <- db_find_all ;;
     ret {| status_code := 200;
            body := BodyJSON (JArray (map Incident_toJSON docs)) |})
    (ret {| status_code := 500;
            body := BodyText "Error fetching incidents." |}).

(** [app.delete('/incidents/:id')] *)
Definition delete_incident (incidentIdToDelete : string) : M Response :=
  try_catch
    (oid <- new_ObjectId incidentIdToDelete ;;
     incident <- db_findOne (by_id oid) ;;
     match incident with
     | None =>
         ret {| status_code := 404;
                body := message_body "Incident not found." |}
     | Some _ =>
         oid' <- new_ObjectId incidentIdToDelete ;;
         deletedCount <- db_deleteOne (by_id oid') ;;
         if deletedCount =? 1 then
           io_emit (incident_deleted incidentIdToDelete) ;;;
           ret {| status_code := 200;
                  body := message_body "Incident deleted successfully." |}
         else
           ret {| status_code := 404;
                  body := message_body
                            "Incident not found or already deleted." |}
     end)
    (ret {| status_code := 500;
            body := BodyText "Error deleting incident." |}).

Definition inlineKeyboard (from : User) : InlineKeyboardMarkup :=
  [ [ {| button_text := "Eagles 24 Tow";
         callback_data := "tow_eagles_" +:+ JS.int_to_string (user_id from) |};
      {| button_text := "Other Tow";
         callback_data := "tow_other_" +:+ JS.int_to_string (user_id from) |} ];
    [ {| button_text := "Scene Cleared";
         callback_data :=
           "scene_cleared_" +:+ JS.int_to_string (user_id from) |} ] ].

Definition messageText (from : User) (location : Location) : string :=
  "ðŸš¨ **New Incident Report!** ðŸš¨" +:+ JS.LF +:+ JS.LF +:+
  "Reporter: " +:+ first_name from +:+ " (@" +:+
    JS.or_lit (username from) "N/A" +:+ ")" +:+ JS.LF +:+
  "Location: Latitude " +:+ Number_toString (loc_latitude location) +:+
    ", Longitude " +:+ Number_toString (loc_longitude location) +:+ JS.LF +:+
  "[View on Google Maps](http://maps.google.com/maps?q=" +:+
    Number_toString (loc_latitude location) +:+ "," +:+
    Number_toString (loc_longitude location) +:+ ")" +:+ JS.LF +:+ JS.LF +:+
  "_Please click a button below to update the status._".

(** [bot.on('location')] *)
Definition on_location (msg : LocationMessage) : M unit :=
  let chatId := lm_chat_id msg in
  let from := lm_from msg in
  let location := lm_location msg in
  try_catch
    (sendLocation TELEGRAM_GROUP_ID
       (loc_latitude location) (loc_longitude location) ;;;
     forwardedMessage <-
       sendMessage TELEGRAM_GROUP_ID (messageText from location)
         (Some (inlineKeyboard from)) ;;
     now <- new_Date ;;
     let newIncident := fun oid =>
       {| _id := oid;
          reporter_id := user_id from;
          reporter_name := first_name from;
          latitude := loc_latitude location;
          longitude := loc_longitude location;
          status := "active";
          telegram_message_id := message_id forwardedMessage;
          telegram_chat_id := chat_id forwardedMessage;
          timestamp := now;
          last_updated := None |} in
     insertedId <- db_insertOne newIncident ;;
     let insertedIncident := newIncident insertedId in
     no_await
       (sendMessage chatId
          "Your location has been forwarded to emergency response services."
          None) ;;;
     io_emit (new_incident insertedIncident))
    (no_await
       (sendMessage chatId
          "Sorry, there was an error processing your location." None)).

(** The status an action token stands for and whether the buttons go
    ([newStatus], [removeButtons]); [None] is the "Unknown action." branch.
    Lines 178 to 194 of the callback handler. *)
Definition resolveStatus (data : string) : option (string * bool) :=
  let parts := JS.split "_" data in
  let action := nth_error parts 0 in
  let type := nth_error parts 1 in
  if JS.eq_lit action "tow" then
    Some ("Tow Requested: " +:+
            (if JS.eq_lit type "eagles" then "Eagles 24" else "Other"),
          false)
  else if JS.eq_lit action "scene" && JS.eq_lit type "cleared" then
    Some ("Scene Cleared", true)
  else None.

Definition auditLine (newStatus : string) (from : User) (now : Date)
  : string :=
  JS.LF +:+ JS.LF +:+ "_Status: " +:+ newStatus +:+ " (by @" +:+
  JS.or_lit (username from) "N/A" +:+ " at " +:+
  Date_toLocaleTimeString now +:+ ")_".

(** [bot.on('callback_query')] *)
Definition on_callback_query (callbackQuery : CallbackQuery) : M unit :=
  let msg := cq_message callbackQuery in
  let data := cq_data callbackQuery in
  let queryId := cq_id callbackQuery in
  match resolveStatus data with
  | None => answerCallbackQuery queryId "Unknown action."
  | Some (newStatus, removeButtons) =>
      stamp <- new_Date ;;
      let updatedMessageText :=
        JS.to_string (JS.or (text msg) (caption msg)) +:+
        auditLine newStatus (cq_from callbackQuery) stamp in
      try_catch
        (editMessageText updatedMessageText (chat_id msg) (message_id msg)
           (if removeButtons : bool then None else reply_markup msg) ;;;
         now <- new_Date ;;
         result <- db_findOneAndUpdate
                     (by_channel_message (message_id msg) (chat_id msg))
                     (set_status newStatus now) ;;
         match result with
         | Some value => io_emit (incident_updated value)
         | None => ret tt
         end ;;;
         answerCallbackQuery queryId ("Status updated to: " +:+ newStatus))
        (answerCallbackQuery queryId "Error updating status.")
  end.

(** [io.on('connection')]: what is sent to the new socket. *)
Definition on_connection : M (list Event) :=
  try_catch
    (initialIncidents <- db_find_all ;;
     ret [initial_incidents initialIncidents])
    (ret []).

End Server.

(* ================================================================== *)
(** * The dashboard scripts                                            *)
(* ================================================================== *)

(** The page state the scripts keep: Leaflet markers, the children of
    [#incident-list], the banner [#no-incidents-message].  Incident fields
    spliced into [innerHTML] and popups are taken as text (they carry no
    markup); an [<li>] is found again through the incident id in its
    element id.  The plain object [markers] is a finite map read through
    its own keys: this is what the scripts do for the ids the server
    sends, the 24 hexadecimal digits of an ObjectId.  An id that names a
    member of [Object.prototype] (where [markers[id]] finds the inherited
    member, and [markers["__proto__"] = marker] makes no own key) or an
    element of index.html is outside this model; statements about the
    page as a whole carry that proviso as a hypothesis. *)

Record Marker := {
  latlng : Q * Q;
  popup : string
}.

Record ListItem := {
  item_incident : string;         (* the [_id] in "incident-..." / "status-..." *)
  item_heading : string;          (* <strong> *)
  item_reporter : string;
  status_textContent : string;    (* the "status-..." span *)
  status_dataset : option string; (* its data-status attribute *)
  item_time : string
}.

Definition has_item (incidentId : string) (li : ListItem) : bool :=
  String.eqb (item_incident li) incidentId.

(** [document.getElementById(...)] followed by a change of the element
    found: the first element in document order. *)
Fixpoint change_first (incidentId : string) (f : ListItem -> ListItem)
    (l : list ListItem) : list ListItem :=
  match l with
  | [] => []
  | li :: rest =>
      if has_item incidentId li then f li :: rest
      else li :: change_first incidentId f rest
  end.

(** [document.getElementById(...)] followed by [.remove()]. *)
Fixpoint remove_first (incidentId : string) (l : list ListItem)
  : list ListItem :=
  match l with
  | [] => []
  | li :: rest =>
      if has_item incidentId li then rest
      else li :: remove_first incidentId rest
  end.

Definition set_popup (content : string) (m : Marker) : Marker :=
  {| latlng := latlng m; popup := content |}.

(** [Object.keys(markers).length === 0 ? 'block' : 'none'] *)
Definition banner_display (markers : gmap string Marker) : string :=
  if bool_decide (markers = ∅) then "block" else "none".

(** ** src/unnamed/part_001: public/script.js, sockets and polling *)

Module Part001.

Record Page := {
  markers : gmap string Marker;          (* const markers = {} *)
  incidentList : list ListItem;          (* children of #incident-list *)
  displayedIncidentIds : gset string;    (* new Set() *)
  noIncidentsMessage : string;           (* style.display *)
  alerts : list Z;                       (* delays of alertSound.play() *)
  lastPollIncidents : list Incident
}.

Definition with_markers (f : gmap string Marker -> gmap string Marker)
    (p : Page) : Page :=
  {| markers := f (markers p); incidentList := incidentList p;
     displayedIncidentIds := displayedIncidentIds p;
     noIncidentsMessage := noIncidentsMessage p; alerts := alerts p;
     lastPollIncidents := lastPollIncidents p |}.

Definition with_incidentList (f : list ListItem -> list ListItem)
    (p : Page) : Page :=
  {| markers := markers p; incidentList := f (incidentList p);
     displayedIncidentIds := displayedIncidentIds p;
     noIncidentsMessage := noIncidentsMessage p; alerts := alerts p;
     lastPollIncidents := lastPollIncidents p |}.

Definition with_displayed (f : gset string -> gset string) (p : Page) : Page :=
  {| markers := markers p; incidentList := incidentList p;
     displayedIncidentIds := f (displayedIncidentIds p);
     noIncidentsMessage := noIncidentsMessage p; alerts := alerts p;
     lastPollIncidents := lastPollIncidents p |}.

Definition with_alert (delay : Z) (p : Page) : Page :=
  {| markers := markers p; incidentList := incidentList p;
     displayedIncidentIds := displayedIncidentIds p;
     noIncidentsMessage := noIncidentsMessage p;
     alerts := alerts p ++ [delay];
     lastPollIncidents := lastPollIncidents p |}.

Definition with_lastPoll (l : list Incident) (p : Page) : Page :=
  {| markers := markers p; incidentList := incidentList p;
     displayedIncidentIds := displayedIncidentIds p;
     noIncidentsMessage := noIncidentsMessage p; alerts := alerts p;
     lastPollIncidents := l |}.

Definition updateNoIncidentsMessage (p : Page) : Page :=
  {| markers := markers p; incidentList := incidentList p;
     displayedIncidentIds := displayedIncidentIds p;
     noIncidentsMessage := banner_display (markers p); alerts := alerts p;
     lastPollIncidents := lastPollIncidents p |}.

Section Functions.

Context `{JsRuntime}.

Definition popupContent (incident : Incident) : string :=
  "<b>Incident ID: " +:+ JS.substring_0 8 (_id incident) +:+
  "...</b><br>Reporter: " +:+ reporter_name incident +:+
  "<br>Status: " +:+ status incident +:+
  "<br>Lat: " +:+ Number_toString (latitude incident) +:+
  "<br>Lon: " +:+ Number_toString (longitude incident).

Definition listItem (incident : Incident) : ListItem :=
  {| item_incident := _id incident;
     item_heading :=
       "Incident ID: " +:+ JS.substring_0 8 (_id incident) +:+ "...";
     item_reporter := "Reporter: " +:+ reporter_name incident;
     status_textContent := status incident;
     status_dataset := Some (JS.toLowerCase (status incident));
     item_time := "Time: " +:+ Date_toLocaleString (timestamp incident) |}.

Definition set_status_span (incident : Incident) (li : ListItem) : ListItem :=
  {| item_incident := item_incident li;
     item_heading := item_heading li;
     item_reporter := item_reporter li;
     status_textContent := status incident;
     status_dataset := Some (JS.toLowerCase (status incident));
     item_time := item_time li |}.

Definition updateIncidentStatusInList (incident : Incident) (p : Page) : Page :=
  let p := with_incidentList
             (change_first (_id incident) (set_status_span incident)) p in
  with_markers (alter (set_popup (popupContent incident)) (_id incident)) p.

Definition addIncidentToMapAndList (incident : Incident)
    (isNewFromPolling : bool) (p : Page) : Page :=
  if bool_decide (_id incident ∈ displayedIncidentIds p) then
    updateIncidentStatusInList incident p
  else
    let marker := {| latlng := (latitude incident, longitude incident);
                     popup := popupContent incident |} in
    let p := with_markers (insert (_id incident) marker) p in
    let p := with_incidentList (cons (listItem incident)) p in
    let p := with_displayed (union {[ _id incident ]}) p in
    let p := with_alert (if isNewFromPolling then 0 else 500) p in
    updateNoIncidentsMessage p.

Definition removeIncidentFromMapAndList (incidentId : string) (p : Page)
  : Page :=
  let p := with_markers (delete incidentId) p in
  let p := with_incidentList (remove_first incidentId) p in
  let p := with_displayed (fun s => s ∖ {[ incidentId ]}) p in
  updateNoIncidentsMessage p.

(** [fetchNewIncidents()]; the argument is the parsed body of
    [GET /incidents], or [None] when the request or the parsing fails. *)
Definition fetchNewIncidents (response : option (list Incident)) (p : Page)
  : Page :=
  match response with
  | None => p
  | Some currentIncidents =>
      let currentIncidentIds : gset string :=
        list_to_set (map _id currentIncidents) in
      let newIncidents :=
        List.filter
          (fun inc => negb (bool_decide (_id inc ∈ displayedIncidentIds p)))
          currentIncidents in
      let p := fold_left (fun p incident =>
                            addIncidentToMapAndList incident true p)
                 newIncidents p in
      let deletedIncidentsInPoll :=
        List.filter
          (fun inc => negb (bool_decide (_id inc ∈ currentIncidentIds)))
          (lastPollIncidents p) in
      let p := fold_left (fun p incident =>
                            removeIncidentFromMapAndList (_id incident) p)
                 deletedIncidentsInPoll p in
      with_lastPoll currentIncidents p
  end.

(** Socket.IO listeners. *)
Definition on_initial_incidents (initialIncidents : list Incident) (p : Page)
  : Page :=
  let p := fold_left (fun p incident =>
                        addIncidentToMapAndList incident false p)
             initialIncidents p in
  with_lastPoll initialIncidents p.

Definition on_new_incident (incident : Incident) (p : Page) : Page :=
  addIncidentToMapAndList incident false p.

Definition on_incident_deleted (incidentId : string) (p : Page) : Page :=
  removeIncidentFromMapAndList incidentId p.

Definition on_incident_updated (incident : Incident) (p : Page) : Page :=
  updateIncidentStatusInList incident p.

Definition on_event (e : Event) (p : Page) : Page :=
  match e with
  | new_incident i => on_new_incident i p
  | incident_updated i => on_incident_updated i p
  | incident_deleted s => on_incident_deleted s p
  | initial_incidents l => on_initial_incidents l p
  end.

End Functions.


(** The page without the log of alert sounds and the polling memory. *)
Definition view (p : Page)
  : gmap string Marker * list ListItem * gset string * string :=
  (markers p, incidentList p, displayedIncidentIds p, noIncidentsMessage p).

(** The ids that have a marker, and the ids that have a list item. *)
Definition marker_ids (p : Page) : gset string := dom (markers p).
Definition item_ids (p : Page) : gset string :=
  list_to_set (map item_incident (incidentList p)).

(** Markers, list items and the set of displayed ids speak of the same
    incidents, one list item each. *)
Definition consistent (p : Page) : Prop :=
  marker_ids p = displayedIncidentIds p
  /\ item_ids p = displayedIncidentIds p
  /\ List.NoDup (map item_incident (incidentList p)).

(** The page when the script has just been loaded. *)
Definition initial : Page :=
  {| markers := ∅; incidentList := []; displayedIncidentIds := ∅;
     noIncidentsMessage := banner_display ∅; alerts := [];
     lastPollIncidents := [] |}.

End Part001.

(** ** src/unnamed/part_000: the dashboard script without polling *)

Module Part000.

Record Page := {
  markers : gmap string Marker;          (* const markers = {} *)
  incidentList : list ListItem;          (* children of #incident-list *)
  noIncidentsMessage : string;           (* style.display *)
  alerts : nat                           (* calls of alertSound.play() *)
}.

Definition with_markers (f : gmap string Marker -> gmap string Marker)
    (p : Page) : Page :=
  {| markers := f (markers p); incidentList := incidentList p;
     noIncidentsMessage := noIncidentsMessage p; alerts := alerts p |}.

Definition with_incidentList (f : list ListItem -> list ListItem)
    (p : Page) : Page :=
  {| markers := markers p; incidentList := f (incidentList p);
     noIncidentsMessage := noIncidentsMessage p; alerts := alerts p |}.

Definition play (p : Page) : Page :=
  {| markers := markers p; incidentList := incidentList p;
     noIncidentsMessage := noIncidentsMessage p; alerts := S (alerts p) |}.

Definition updateNoIncidentsMessage (p : Page) : Page :=
  {| markers := markers p; incidentList := incidentList p;
     noIncidentsMessage := banner_display (markers p); alerts := alerts p |}.

Section Functions.

Context `{JsRuntime}.

Definition popupContent (prefix : string) (incident : Incident) : string :=
  prefix +:+ JS.substring_0 8 (_id incident) +:+
  "...</b><br>Reporter: " +:+ reporter_name incident +:+
  "<br>Status: " +:+ status incident +:+
  "<br>Lat: " +:+ Number_toString (latitude incident) +:+
  "<br>Lon: " +:+ Number_toString (longitude incident).

Definition listItem (incident : Incident) : ListItem :=
  {| item_incident := _id incident;
     item_heading := "Incident ID: " +:+ _id incident;
     item_reporter := "Reporter: " +:+ reporter_name incident;
     status_textContent := status incident;
     status_dataset := None;
     item_time := "Time: " +:+ Date_toLocaleString (timestamp incident) |}.

Definition set_status_span (incident : Incident) (li : ListItem) : ListItem :=
  {| item_incident := item_incident li;
     item_heading := item_heading li;
     item_reporter := item_reporter li;
     status_textContent := status incident;
     status_dataset := status_dataset li;
     item_time := item_time li |}.

Definition addIncidentToMapAndList (incident : Incident) (p : Page) : Page :=
  if bool_decide (is_Some (markers p !! _id incident)) then p
  else
    let marker := {| latlng := (latitude incident, longitude incident);
                     popup := popupContent "<b>Incident #" incident |} in
    let p := with_markers (insert (_id incident) marker) p in
    let p := with_incidentList (cons (listItem incident)) p in
    updateNoIncidentsMessage p.

Definition removeIncidentFromMapAndList (incidentId : string) (p : Page)
  : Page :=
  let p := with_markers (delete incidentId) p in
  let p := with_incidentList (remove_first incidentId) p in
  updateNoIncidentsMessage p.

Definition updateIncidentStatusInList (incident : Incident) (p : Page) : Page :=
  let p := with_incidentList
             (change_first (_id incident) (set_status_span incident)) p in
  with_markers
    (alter (set_popup (popupContent "<b>Incident ID: " incident))
       (_id incident)) p.

(** Socket.IO listeners. *)
Definition on_initial_incidents (initialIncidents : list Incident) (p : Page)
  : Page :=
  let p := fold_left (fun p id => removeIncidentFromMapAndList id p)
             (map fst (map_to_list (markers p))) p in
  fold_left (fun p incident => addIncidentToMapAndList incident p)
    initialIncidents p.

Definition on_new_incident (incident : Incident) (p : Page) : Page :=
  play (addIncidentToMapAndList incident p).

Definition on_incident_deleted (incidentId : string) (p : Page) : Page :=
  removeIncidentFromMapAndList incidentId p.

Definition on_incident_updated (incident : Incident) (p : Page) : Page :=
  updateIncidentStatusInList incident p.

End Functions.

(** The page without the count of alert sounds. *)
Definition view (p : Page) : gmap string Marker * list ListItem * string :=
  (markers p, incidentList p, noIncidentsMessage p).

(** The page when the script has just been loaded. *)
Definition initial : Page :=
  {| markers := ∅; incidentList := []; noIncidentsMessage := banner_display ∅;
     alerts := O |}.

End Part000.

(* ================================================================== *)
(** * Vocabulary of the statements                                     *)
(* ================================================================== *)

(** ** Action tokens *)

(** [s] has no occurrence of [sep]. *)
Fixpoint free_of (sep : ascii) (s : string) : bool :=
  match s with
  | EmptyString => true
  | String c s' => negb (Ascii.eqb c sep) && free_of sep s'
  end.

(** [<verb>_<qualifier>_<actor-id>] *)
Definition token (verb qualifier actor : string) : string :=
  verb +:+ "_" +:+ qualifier +:+ "_" +:+ actor.

(** The first and second underscore-delimited segments of a token. *)
Definition segment (n : nat) (data : string) : option string :=
  nth_error (JS.split "_" data) n.

(** A token one of the three mappings applies to. *)
Definition recognized (data : string) : Prop :=
  segment 0 data = Some "tow"
  \/ (segment 0 data = Some "scene" /\ segment 1 data = Some "cleared").

(** ** Worlds *)

(** No external call fails from here on. *)
Definition calm (w : World) : Prop := faults w = [].

(** The message an action refers to, as it stands in its chat. *)
Definition channel_message (chatId messageId : Z) (w : World)
  : option Message :=
  List.find (is_message chatId messageId) (chats w).

(** [findByChannelMessage] of the store contract. *)
Definition findByChannelMessage (chatId messageId : Z) (w : World)
  : option Incident :=
  Collection.findOne (by_channel_message messageId chatId) (incidents w).

(** [listAll] of the store contract. *)
Definition listAll (w : World) : list Incident := incidents w.

(** The text the handler puts in place of the message text. *)
Definition updated_text `{JsRuntime} (cq : CallbackQuery)
    (newStatus : string) (now : Date) : string :=
  JS.to_string (JS.or (text (cq_message cq)) (caption (cq_message cq)))
  +:+ auditLine newStatus (cq_from cq) now.

(** Latitude in [-90, 90] and longitude in [-180, 180]. *)
Definition in_bounds (l : Location) : bool :=
  Qle_bool (-90 # 1) (loc_latitude l) && Qle_bool (loc_latitude l) (90 # 1)
  && Qle_bool (-180 # 1) (loc_longitude l)
  && Qle_bool (loc_longitude l) (180 # 1).

(** What a resolved action leaves alone in a document. *)
Definition same_frame (d d' : Incident) : Prop :=
  _id d' = _id d
  /\ reporter_id d' = reporter_id d
  /\ reporter_name d' = reporter_name d
  /\ latitude d' = latitude d
  /\ longitude d' = longitude d
  /\ telegram_message_id d' = telegram_message_id d
  /\ telegram_chat_id d' = telegram_chat_id d
  /\ timestamp d' = timestamp d.

(** Member names of a JSON object. *)
Definition member_names (j : JSON) : list string :=
  match j with
  | JObject members => map fst members
  | _ => []
  end.

(** ** Store mutations seen from the dashboard *)




(** The ids of a snapshot. *)
Definition ids_of (docs : list Incident) : gset string :=
  list_to_set (map _id docs).

(** ** Requests and reachable worlds *)

(** The unique index on [_id]. *)
Definition unique_ids (w : World) : Prop :=
  List.NoDup (map _id (incidents w)).

Inductive Request :=
| Report (msg : LocationMessage)
| Press (callbackQuery : CallbackQuery)
| HttpDelete (incidentId : string)
| HttpGet
| Connect.

(** The world after the server handled a request. *)
Definition handle `{JsRuntime} (gid : Z) (r : Request) (w : World) : World :=
  match r with
  | Report msg => snd (on_location gid msg w)
  | Press callbackQuery => snd (on_callback_query callbackQuery w)
  | HttpDelete incidentId => snd (delete_incident incidentId w)
  | HttpGet => snd (get_incidents w)
  | Connect => snd (on_connection w)
  end.

(** Between requests time passes and the environment decides which of
    the coming calls fail. *)
Definition environment (now : Date) (script : list bool) (w : World) : World :=
  {| incidents := incidents w; oid_counter := oid_counter w;
     chats := chats w; next_message_id := next_message_id w;
     answers := answers w; emitted := emitted w; clock := now;
     faults := script |}.

Inductive reachable `{JsRuntime} (gid : Z) : World -> Prop :=
| reachable_start w :
    incidents w = [] -> reachable gid w
| reachable_handle r w :
    reachable gid w -> reachable gid (handle gid r w)
| reachable_environment now script w :
    reachable gid w -> reachable gid (environment now script w).

(** ** Outcomes of handlers *)

(** [wp c Q w]: run from [w], the computation [c] ends with a result and
    a world that satisfy [Q]. *)
Definition wp {A} (c : M A) (Q : Result A -> World -> Prop) (w : World)
  : Prop :=
  Q (fst (c w)) (snd (c w)).

(** ** Sample data *)

#[local] Instance sample_runtime : JsRuntime := {|
  Number_toString := fun q =>
    if Pos.eqb (Qden q) 1 then pretty (Qnum q)
    else pretty (Qnum q) +:+ "/" +:+ pretty (Zpos (Qden q));
  Date_toLocaleTimeString := fun d => pretty d;
  Date_toLocaleString := fun d => pretty d;
  Date_toISOString := fun d => pretty d;
  ObjectId_fromString := ObjectIds.of_string |}.

Definition sample_group : Z := -1001.

Definition empty_world : World :=
  {| incidents := []; oid_counter := 0%N; chats := [];
     next_message_id := 1; answers := []; emitted := [];
     clock := 1700000000000; faults := [] |}.

Definition alice : User :=
  {| user_id := 42; first_name := "Alice"; username := None |}.

Definition bob : User :=
  {| user_id := 7; first_name := "Bob"; username := Some "bob" |}.

(** The report of the scenario, at (-25.75, 28.23). *)
Definition sample_report : LocationMessage :=
  {| lm_chat_id := 42; lm_from := alice;
     lm_location := {| loc_latitude := (-2575 # 100)%Q;
                       loc_longitude := (2823 # 100)%Q |} |}.

(** A report whose latitude is 91. *)
Definition far_report : LocationMessage :=
  {| lm_chat_id := 42; lm_from := alice;
     lm_location := {| loc_latitude := (91 # 1)%Q;
                       loc_longitude := (0 # 1)%Q |} |}.

(** The world after the sample report went through. *)
Definition reported_world : World :=
  snd (on_location sample_group sample_report empty_world).

(** The document the sample report is stored as. *)
Definition sample_incident : Incident :=
  {| _id := "000000000000000000000000";
     reporter_id := 42;
     reporter_name := "Alice";
     latitude := (-2575 # 100)%Q;
     longitude := (2823 # 100)%Q;
     status := "active";
     telegram_message_id := 2;
     telegram_chat_id := sample_group;
     timestamp := 1700000000000;
     last_updated := None |}.


(** A press on a button of the companion message (id 2 in the group). *)
Definition press (data : string) : CallbackQuery :=
  {| cq_id := "query-1"; cq_from := bob;
     cq_message :=
       {| message_id := 2; chat_id := sample_group;
          text := Some (messageText alice (lm_location sample_report));
          caption := None; location := None;
          reply_markup := Some (inlineKeyboard alice) |};
     cq_data := data |}.

(** The same world once the document was deleted from the dashboard: the
    store is empty, the companion message still stands in the group. *)
Definition orphaned_world : World :=
  snd (delete_incident (_id sample_incident) reported_world).

(* ================================================================== *)
(** * The delete button of the dashboard                               *)
(* ================================================================== *)

(** [deleteIncident(incidentId)], the same in both dashboard scripts
    (part_000 lines 76 to 95, part_001 lines 96 to 116).  The dialogs it
    can open with [alert]: the first carries [errorData.message], which is
    undefined when the parsed body has no such member. *)
Inductive Alert :=
| ErrorDeletingIncident (message : option JSON)
| FailedToConnect.

(** [response.ok]: a status from 200 to 299. *)
Definition response_ok (r : Response) : bool :=
  (200 <=? status_code r) && (status_code r <=? 299).

(** [errorData.message] *)
Definition message_member (errorData : JSON) : option JSON :=
  match errorData with
  | JObject members =>
      option_map snd
        (List.find (fun kv => String.eqb (fst kv) "message") members)
  | _ => None
  end.

Section DeleteButton.

(** [JSON.parse] on the text of a body that was sent as a string; [None]
    when the text is not JSON and [response.json()] rejects. *)
Variable JSON_parse : string -> option JSON.

(** [await response.json()] *)
Definition response_json (r : Response) : option JSON :=
  match body r with
  | BodyJSON j => Some j
  | BodyText s => JSON_parse s
  end.

(** The part of [deleteIncident] after the request: [response] is [None]
    when [fetch] rejects. *)
Definition after_fetch (response : option Response) : list Alert :=
  match response with
  | None => [FailedToConnect]
  | Some r =>
      if response_ok r then []
      else match response_json r with
           | Some errorData => [ErrorDeletingIncident (message_member errorData)]
           | None => [FailedToConnect]
           end
  end.

(** [deleteIncident(incidentId)] against the server in world [w]:
    [confirmed] is the answer to the [confirm] dialog.  The result is the
    dialogs opened and the world the server is left in. *)
Definition deleteIncident `{JsRuntime} (confirmed : bool)
    (incidentId : string) (w : World) : list Alert * World :=
  if confirmed then
    let out := delete_incident incidentId w in
    (after_fetch (match fst out with
                  | Ok r => Some r
                  | Throw => None
                  end),
     snd out)
  else ([], w).

End DeleteButton.

(** A parser that refuses every text; enough for the bodies this server
    sends as strings. *)
Definition no_json : string -> option JSON := fun _ => None.

(** ** Documents as the handlers write them *)

(** A document is either fresh from a report (status "active", never
    updated) or carries one of the three statuses of an action together
    with the time of its last update. *)
Definition written_by_handlers (d : Incident) : Prop :=
  (status d = "active" /\ last_updated d = None)
  \/ ((status d = "Tow Requested: Eagles 24"
       \/ status d = "Tow Requested: Other"
       \/ status d = "Scene Cleared")
      /\ exists t, last_updated d = Some t).

(** ** What happens to a dashboard page *)

(** The polling script runs its listeners one after the other: a Socket.IO
    event arrives, or a poll gets its answer. *)
Inductive PageInput :=
| FromSocket (e : Event)
| FromPoll (response : option (list Incident)).

Definition page_step `{JsRuntime} (p : Part001.Page) (i : PageInput)
  : Part001.Page :=
  match i with
  | FromSocket e => Part001.on_event e p
  | FromPoll response => Part001.fetchNewIncidents response p
  end.


(** The banner says what the markers say. *)
Definition tidy (p : Part001.Page) : Prop :=
  Part001.noIncidentsMessage p = banner_display (Part001.markers p).

(** The page after the script was loaded and handled the inputs. *)
Definition page_after `{JsRuntime} (inputs : list PageInput) : Part001.Page :=
  fold_left page_step inputs Part001.initial.

(** ** Incidents as the dashboard can show them *)

(** The [_id] of a document on the wire: the 24 hexadecimal digits of a
    MongoDB ObjectId.  For such ids [markers[id]] on the plain object
    [markers] finds own properties only (no member of [Object.prototype]
    has such a name, and [__proto__] is not one), and ["incident-" + id],
    ["status-" + id] name no element of index.html other than those the
    scripts create. *)
Definition objectid_string (s : string) : bool :=
  (String.length s =? 24)%nat
  && forallb ObjectIds.is_hex (list_ascii_of_string s).

(** Text that stays text when it is spliced into [innerHTML] or into a
    double-quoted attribute: no [<], no [&], no double quote. *)
Definition plain_text (s : string) : bool :=
  free_of "<" s && free_of "&" s && free_of (ascii_of_nat 34) s.

(** An incident the scripts render as the page model has it: its id is an
    ObjectId string and its reporter name and status are plain text. *)
Definition displayable (incident : Incident) : bool :=
  objectid_string (_id incident)
  && plain_text (reporter_name incident)
  && plain_text (status incident).

(** The inputs the server sends: displayable incidents and ObjectId
    strings. *)
Definition input_ok (i : PageInput) : bool :=
  match i with
  | FromSocket (new_incident incident) => displayable incident
  | FromSocket (incident_updated incident) => displayable incident
  | FromSocket (incident_deleted incidentId) => objectid_string incidentId
  | FromSocket (initial_incidents initialIncidents) =>
      forallb displayable initialIncidents
  | FromPoll (Some currentIncidents) => forallb displayable currentIncidents
  | FromPoll None => true
  end.

(** ** More sample data *)

(** A second document, reported by Bob. *)
Definition second_incident : Incident :=
  {| _id := "000000000000000000000001";
     reporter_id := 7;
     reporter_name := "Bob";
     latitude := (-2580 # 100)%Q;
     longitude := (2819 # 100)%Q;
     status := "active";
     telegram_message_id := 5;
     telegram_chat_id := sample_group;
     timestamp := 1700000060000;
     last_updated := None |}.



(* ================================================================== *)
(** * Properties                                                       *)
(* ================================================================== *)

(** ** Splitting action tokens *)

Lemma split_not_nil sep s : JS.split sep s <> [].
Proof.
  destruct s as [|c s]; simpl; [discriminate|].
  destruct (Ascii.eqb c sep); [discriminate|].
  destruct (JS.split sep s); discriminate.
Qed.

Lemma split_free sep a : free_of sep a = true -> JS.split sep a = [a].
Proof.
  induction a as [|c a IH]; simpl; [reflexivity|].
  intros [Hc Ha]%andb_true_iff.
  apply negb_true_iff in Hc. rewrite Hc, (IH Ha). reflexivity.
Qed.

Lemma split_app sep a b :
  free_of sep a = true ->
  JS.split sep (a +:+ String sep b) = a :: JS.split sep b.
Proof.
  induction a as [|c a IH]; simpl.
  - intros _. rewrite Ascii.eqb_refl. reflexivity.
  - intros [Hc Ha]%andb_true_iff.
    apply negb_true_iff in Hc. rewrite Hc, (IH Ha). reflexivity.
Qed.

Lemma split_token verb qualifier actor :
  free_of "_" verb = true -> free_of "_" qualifier = true ->
  JS.split "_" (token verb qualifier actor)
  = verb :: qualifier :: JS.split "_" actor.
Proof.
  intros Hv Hq. unfold token.
  change ("_" +:+ qualifier +:+ "_" +:+ actor)
    with (String "_" (qualifier +:+ String "_" actor)).
  rewrite (split_app _ _ _ Hv), (split_app _ _ _ Hq). reflexivity.
Qed.

Lemma segments_token verb qualifier actor :
  free_of "_" verb = true -> free_of "_" qualifier = true ->
  segment 0 (token verb qualifier actor) = Some verb
  /\ segment 1 (token verb qualifier actor) = Some qualifier.
Proof.
  intros Hv Hq. unfold segment. rewrite (split_token _ _ _ Hv Hq).
  split; reflexivity.
Qed.

(** [resolveStatus] in terms of the first two segments. *)
Lemma resolveStatus_segments data :
  resolveStatus data =
  if JS.eq_lit (segment 0 data) "tow" then
    Some ("Tow Requested: " +:+
            (if JS.eq_lit (segment 1 data) "eagles"
             then "Eagles 24" else "Other"), false)
  else if JS.eq_lit (segment 0 data) "scene"
          && JS.eq_lit (segment 1 data) "cleared"
  then Some ("Scene Cleared", true)
  else None.
Proof. reflexivity. Qed.

Lemma eq_lit_true a lit : JS.eq_lit a lit = true <-> a = Some lit.
Proof.
  destruct a as [s|]; simpl.
  - rewrite String.eqb_eq. split; congruence.
  - split; discriminate.
Qed.

Lemma eq_lit_false a lit : JS.eq_lit a lit = false <-> a <> Some lit.
Proof.
  rewrite <- eq_lit_true. destruct (JS.eq_lit a lit); split; congruence.
Qed.

Lemma resolveStatus_tow_eagles data :
  segment 0 data = Some "tow" -> segment 1 data = Some "eagles" ->
  resolveStatus data = Some ("Tow Requested: Eagles 24", false).
Proof.
  intros H0 H1. rewrite resolveStatus_segments, H0, H1. reflexivity.
Qed.

Lemma resolveStatus_tow_other data :
  segment 0 data = Some "tow" -> segment 1 data <> Some "eagles" ->
  resolveStatus data = Some ("Tow Requested: Other", false).
Proof.
  intros H0 H1%eq_lit_false.
  rewrite resolveStatus_segments, H0, H1. reflexivity.
Qed.

Lemma resolveStatus_scene_cleared data :
  segment 0 data = Some "scene" -> segment 1 data = Some "cleared" ->
  resolveStatus data = Some ("Scene Cleared", true).
Proof.
  intros H0 H1. rewrite resolveStatus_segments, H0, H1. reflexivity.
Qed.

Lemma resolveStatus_rejected data :
  ~ recognized data <-> resolveStatus data = None.
Proof.
  rewrite resolveStatus_segments. unfold recognized.
  destruct (JS.eq_lit (segment 0 data) "tow") eqn:Ht.
  - apply eq_lit_true in Ht. split; [tauto | discriminate].
  - apply eq_lit_false in Ht.
    destruct (JS.eq_lit (segment 0 data) "scene") eqn:Hs;
      destruct (JS.eq_lit (segment 1 data) "cleared") eqn:Hc; simpl;
      rewrite ?eq_lit_true, ?eq_lit_false in *;
      split; try discriminate; try tauto.
Qed.

Lemma resolveStatus_recognized data :
  recognized data <-> exists st rb, resolveStatus data = Some (st, rb).
Proof.
  split.
  - intros [H0 | [H0 H1]].
    + rewrite resolveStatus_segments, H0. simpl. eauto.
    + rewrite (resolveStatus_scene_cleared _ H0 H1). eauto.
  - intros (st & rb & E). rewrite resolveStatus_segments in E.
    unfold recognized.
    destruct (JS.eq_lit (segment 0 data) "tow") eqn:Ht.
    + left. by apply eq_lit_true.
    + destruct (JS.eq_lit (segment 0 data) "scene") eqn:Hs;
        destruct (JS.eq_lit (segment 1 data) "cleared") eqn:Hc;
        simpl in E; try discriminate.
      right. split; by apply eq_lit_true.
Qed.

(** ** Rules for running handlers *)

Lemma wp_ret {A} (a : A) Q w : Q (Ok a) w -> wp (ret a) Q w.
Proof. exact id. Qed.

Lemma wp_throw {A} (Q : Result A -> World -> Prop) w :
  Q Throw w -> wp throw Q w.
Proof. exact id. Qed.

Lemma wp_gets {A} (f : World -> A) Q w : Q (Ok (f w)) w -> wp (gets f) Q w.
Proof. exact id. Qed.

Lemma wp_modify f Q w : Q (Ok tt) (f w) -> wp (modify f) Q w.
Proof. exact id. Qed.

Lemma wp_bind {A B} (c : M A) (k : A -> M B) Q w :
  wp c (fun r w' => match r with
                    | Ok a => wp (k a) Q w'
                    | Throw => Q Throw w'
                    end) w ->
  wp (bind c k) Q w.
Proof.
  unfold wp, bind. destruct (c w) as [[a|] w']; simpl; exact id.
Qed.

Lemma wp_try_catch {A} (c h : M A) Q w :
  wp c (fun r w' => match r with
                    | Ok a => Q (Ok a) w'
                    | Throw => wp h Q w'
                    end) w ->
  wp (try_catch c h) Q w.
Proof.
  unfold wp, try_catch. destruct (c w) as [[a|] w']; simpl; exact id.
Qed.

Lemma wp_no_await {A} (c : M A) Q w :
  wp c (fun _ w' => Q (Ok tt) w') w -> wp (no_await c) Q w.
Proof. exact id. Qed.

Lemma wp_external Q w :
  (faults w = [] -> Q (Ok tt) w) ->
  (forall rest, faults w = false :: rest -> Q (Ok tt) (set_faults rest w)) ->
  (forall rest, faults w = true :: rest -> Q Throw (set_faults rest w)) ->
  wp external Q w.
Proof.
  unfold wp, external. intros H0 H1 H2.
  destruct (faults w) as [|[|] rest]; simpl; auto.
Qed.

Lemma wp_external_calm Q w : calm w -> Q (Ok tt) w -> wp external Q w.
Proof. unfold wp, external, calm. intros ->. exact id. Qed.

Lemma wp_mono {A} (c : M A) (Q Q' : Result A -> World -> Prop) w :
  (forall r w', Q r w' -> Q' r w') -> wp c Q w -> wp c Q' w.
Proof. unfold wp. auto. Qed.

(** One step of a run; the three outcomes of an external call become
    three goals. *)
Ltac wp_step :=
  lazymatch goal with
  | |- wp (bind _ _) _ _ => apply wp_bind
  | |- wp (try_catch _ _) _ _ => apply wp_try_catch
  | |- wp (no_await _) _ _ => apply wp_no_await
  | |- wp (ret _) _ _ => apply wp_ret
  | |- wp throw _ _ => apply wp_throw
  | |- wp (gets _) _ _ => apply wp_gets
  | |- wp (modify _) _ _ => apply wp_modify
  | |- wp external _ _ =>
      apply wp_external; [intros ? | intros ? ? | intros ? ?]
  | |- wp (if ?b then _ else _) _ _ => destruct b eqn:?
  | |- wp (match ?x with _ => _ end) _ _ => destruct x eqn:?
  end.

Ltac unfold_ops :=
  unfold db_find_all, db_findOne, db_deleteOne, db_findOneAndUpdate,
    db_insertOne, new_ObjectId, sendLocation, sendMessage, post,
    editMessageText, answerCallbackQuery, new_Date, io_emit.

Ltac simpl_world :=
  cbn [incidents oid_counter chats next_message_id answers emitted clock
       faults set_incidents set_oid_counter set_chats set_next_message_id
       set_answers set_emitted set_faults fst snd] in *.

Ltac wp_run := unfold_ops; repeat (wp_step; cbn beta iota); simpl_world.

(** ** The collection operations *)

Lemma findOneAndUpdate_none filter update docs :
  Collection.findOne filter docs = None ->
  Collection.findOneAndUpdate filter update docs = (None, docs).
Proof.
  unfold Collection.findOne.
  induction docs as [|d docs IH]; simpl; [reflexivity|].
  destruct (filter d); [discriminate|].
  intros E. rewrite (IH E). reflexivity.
Qed.

Lemma findOneAndUpdate_value filter update docs :
  fst (Collection.findOneAndUpdate filter update docs)
  = option_map update (Collection.findOne filter docs).
Proof.
  unfold Collection.findOne.
  induction docs as [|d docs IH]; simpl; [reflexivity|].
  destruct (filter d); simpl; auto.
Qed.

Lemma findOneAndUpdate_pointwise filter update docs :
  Forall2 (fun d d' => d' = d \/ d' = update d) docs
    (snd (Collection.findOneAndUpdate filter update docs)).
Proof.
  induction docs as [|d docs IH]; simpl; [constructor|].
  destruct (filter d); simpl.
  - constructor; [by right|]. apply Forall2_same_length_lookup_2; [done|].
    intros i x y Hx Hy. left. congruence.
  - constructor; [by left | exact IH].
Qed.

Lemma deleteOne_none filter docs :
  Collection.findOne filter docs = None ->
  Collection.deleteOne filter docs = (0, docs).
Proof.
  unfold Collection.findOne.
  induction docs as [|d docs IH]; simpl; [reflexivity|].
  destruct (filter d); [discriminate|].
  intros E. rewrite (IH E). reflexivity.
Qed.

Lemma deleteOne_count filter docs d :
  Collection.findOne filter docs = Some d ->
  fst (Collection.deleteOne filter docs) = 1.
Proof.
  unfold Collection.findOne.
  induction docs as [|d0 docs IH]; simpl; [discriminate|].
  destruct (filter d0); simpl; auto.
Qed.

Lemma deleteOne_incl filter docs j :
  In j (snd (Collection.deleteOne filter docs)) -> In j docs.
Proof.
  induction docs as [|d docs IH]; simpl; [tauto|].
  destruct (filter d); simpl; tauto.
Qed.

Lemma deleteOne_others filter docs j :
  In j docs -> filter j = false ->
  In j (snd (Collection.deleteOne filter docs)).
Proof.
  induction docs as [|d docs IH]; simpl; [tauto|].
  intros [->|Hj] Fj.
  - rewrite Fj. simpl. by left.
  - destruct (filter d); simpl; auto.
Qed.

Lemma by_id_true oid d : by_id oid d = true <-> _id d = oid.
Proof. unfold by_id. apply String.eqb_eq. Qed.

Lemma by_id_false oid d : by_id oid d = false <-> _id d <> oid.
Proof. unfold by_id. apply String.eqb_neq. Qed.

(** With the unique index on [_id], the deleted identifier is gone. *)
Lemma deleteOne_by_id_gone oid docs j :
  List.NoDup (map _id docs) ->
  In j (snd (Collection.deleteOne (by_id oid) docs)) -> _id j <> oid.
Proof.
  induction docs as [|d docs IH]; simpl; [tauto|].
  intros ND. apply List.NoDup_cons_iff in ND as [Hd ND].
  destruct (by_id oid d) eqn:E; simpl.
  - apply by_id_true in E. intros Hj <-. apply Hd. rewrite E.
    by apply in_map.
  - apply by_id_false in E. intros [<-|Hj]; auto.
Qed.

Lemma findOne_Some_in filter docs d :
  Collection.findOne filter docs = Some d -> In d docs /\ filter d = true.
Proof. apply List.find_some. Qed.

Lemma findOne_None_all filter docs :
  Collection.findOne filter docs = None ->
  forall d, In d docs -> filter d = false.
Proof. apply List.find_none. Qed.

Lemma set_status_frame newStatus now d :
  same_frame d (set_status newStatus now d).
Proof. repeat split. Qed.

Lemma same_frame_refl d : same_frame d d.
Proof. repeat split. Qed.

(** ** Messages in a chat *)

Lemma existsb_find {A} (f : A -> bool) l :
  existsb f l = true <-> exists x, List.find f l = Some x.
Proof.
  induction l as [|a l IH]; simpl.
  - split; [discriminate | intros [? ?]; discriminate].
  - destruct (f a); simpl; [split; eauto | exact IH].
Qed.

Lemma is_message_edited chatId messageId txt markup m :
  is_message chatId messageId (edited txt markup m)
  = is_message chatId messageId m.
Proof. reflexivity. Qed.

Lemma find_edit_first chatId messageId f l :
  (forall m, is_message chatId messageId (f m) = is_message chatId messageId m) ->
  List.find (is_message chatId messageId) (edit_first chatId messageId f l)
  = option_map f (List.find (is_message chatId messageId) l).
Proof.
  intros Hf. induction l as [|m l IH]; simpl; [reflexivity|].
  destruct (is_message chatId messageId m) eqn:E; simpl.
  - rewrite Hf, E. reflexivity.
  - rewrite E. exact IH.
Qed.

Lemma edit_first_absent chatId messageId f l :
  List.find (is_message chatId messageId) l = None ->
  edit_first chatId messageId f l = l.
Proof.
  induction l as [|m l IH]; simpl; [reflexivity|].
  destruct (is_message chatId messageId m); [discriminate|].
  intros E. rewrite (IH E). reflexivity.
Qed.

Lemma Forall2_diag {A} (R : A -> A -> Prop) l :
  (forall x, R x x) -> Forall2 R l l.
Proof. intros HR. induction l; constructor; auto. Qed.

(** ** The callback handler *)

Section CallbackHandler.

Context `{JsRuntime}.

(** An unrecognized token: one answer, nothing else. *)
Lemma on_callback_query_unknown w cq :
  resolveStatus (cq_data cq) = None ->
  wp (on_callback_query cq)
    (fun r w' =>
       incidents w' = incidents w /\ chats w' = chats w
       /\ emitted w' = emitted w
       /\ (hd false (faults w) = false ->
           r = Ok tt
           /\ answers w' = answers w ++ [(cq_id cq, "Unknown action.")])) w.
Proof.
  intros E. unfold on_callback_query. rewrite E.
  wp_run; repeat split; auto;
    match goal with
    | Hf : faults _ = _, Hh : hd _ _ = _ |- _ =>
        rewrite Hf in Hh; discriminate
    end.
Qed.

(** A recognized token in a calm world whose message stands in the chat. *)
Lemma on_callback_query_calm w cq newStatus removeButtons m :
  let msg := cq_message cq in
  calm w ->
  resolveStatus (cq_data cq) = Some (newStatus, removeButtons) ->
  channel_message (chat_id msg) (message_id msg) w = Some m ->
  wp (on_callback_query cq)
    (fun r w' =>
       r = Ok tt
       /\ chats w'
          = edit_first (chat_id msg) (message_id msg)
              (edited (updated_text cq newStatus (clock w))
                 (if removeButtons then None else reply_markup msg))
              (chats w)
       /\ incidents w'
          = snd (Collection.findOneAndUpdate
                   (by_channel_message (message_id msg) (chat_id msg))
                   (set_status newStatus (clock w)) (incidents w))
       /\ emitted w'
          = emitted w
            ++ match findByChannelMessage (chat_id msg) (message_id msg) w with
               | Some d => [incident_updated (set_status newStatus (clock w) d)]
               | None => []
               end
       /\ answers w'
          = answers w ++ [(cq_id cq, "Status updated to: " +:+ newStatus)]) w.
Proof.
  intros msg Hcalm E Hm. unfold on_callback_query. rewrite E.
  assert (Hex : existsb (is_message (chat_id msg) (message_id msg)) (chats w)
                = true) by (apply existsb_find; eauto).
  unfold calm in Hcalm. fold msg.
  wp_run; try congruence;
    match goal with
    | Hv : fst (Collection.findOneAndUpdate _ _ _) = _ |- _ =>
        rewrite findOneAndUpdate_value in Hv
    end;
    unfold findByChannelMessage, updated_text; fold msg;
    destruct (Collection.findOne _ (incidents w)); simplify_eq/=;
    rewrite ?app_nil_r; auto.
Qed.

(** Whatever fails, the store only changes by the update of the handler,
    and events are only added. *)
Lemma on_callback_query_store w cq :
  let msg := cq_message cq in
  wp (on_callback_query cq)
    (fun _ w' =>
       incidents w' = incidents w
       \/ exists newStatus removeButtons,
            resolveStatus (cq_data cq) = Some (newStatus, removeButtons)
            /\ incidents w'
               = snd (Collection.findOneAndUpdate
                        (by_channel_message (message_id msg) (chat_id msg))
                        (set_status newStatus (clock w)) (incidents w))) w.
Proof.
  intros msg. unfold on_callback_query.
  destruct (resolveStatus (cq_data cq)) as [[newStatus removeButtons]|] eqn:E.
  - fold msg. wp_run; auto; right; eauto.
  - wp_run; auto.
Qed.

(** Without a matching document nothing is written and nothing is
    broadcast, whatever fails. *)
Lemma on_callback_query_no_match w cq :
  let msg := cq_message cq in
  findByChannelMessage (chat_id msg) (message_id msg) w = None ->
  wp (on_callback_query cq)
    (fun _ w' => incidents w' = incidents w /\ emitted w' = emitted w) w.
Proof.
  intros msg N. unfold findByChannelMessage in N. unfold on_callback_query.
  destruct (resolveStatus (cq_data cq)) as [[newStatus removeButtons]|] eqn:E.
  - fold msg. wp_run; auto;
      match goal with
      | Hv : fst (Collection.findOneAndUpdate _ _ _) = _ |- _ =>
          rewrite findOneAndUpdate_value, N in Hv; try discriminate
      end;
      rewrite (findOneAndUpdate_none _ _ _ N); auto.
  - wp_run; auto.
Qed.

End CallbackHandler.

Lemma findOne_findOneAndUpdate filter update docs :
  (forall d, filter (update d) = filter d) ->
  Collection.findOne filter
    (snd (Collection.findOneAndUpdate filter update docs))
  = option_map update (Collection.findOne filter docs).
Proof.
  intros Hf. unfold Collection.findOne.
  induction docs as [|d docs IH]; simpl; [reflexivity|].
  destruct (filter d) eqn:E; simpl.
  - rewrite Hf, E. reflexivity.
  - rewrite E. exact IH.
Qed.

(** ** Status Transition Engine *)

(** C5.  For tokens [<verb>_<qualifier>_<actor-id>] the status is a
    function of verb and qualifier alone: [tow] with [eagles] gives
    "Tow Requested: Eagles 24", [tow] with any other qualifier gives
    "Tow Requested: Other", [scene] with [cleared] gives the terminal
    "Scene Cleared", and every other combination is rejected.  When the
    action is carried out, the document gets exactly that status, and the
    channel message loses its buttons exactly when the status is the
    terminal one. *)
Theorem resolve_token_mapping `{JsRuntime} (verb qualifier actor : string) :
  free_of "_" verb = true -> free_of "_" qualifier = true ->
  let data := token verb qualifier actor in
  (verb = "tow" -> qualifier = "eagles" ->
   resolveStatus data = Some ("Tow Requested: Eagles 24", false))
  /\ (verb = "tow" -> qualifier <> "eagles" ->
      resolveStatus data = Some ("Tow Requested: Other", false))
  /\ (verb = "scene" -> qualifier = "cleared" ->
      resolveStatus data = Some ("Scene Cleared", true))
  /\ (verb <> "tow" -> ~ (verb = "scene" /\ qualifier = "cleared") ->
      resolveStatus data = None)
  /\ (forall w cq m d newStatus removeButtons,
        let msg := cq_message cq in
        cq_data cq = data -> calm w ->
        channel_message (chat_id msg) (message_id msg) w = Some m ->
        findByChannelMessage (chat_id msg) (message_id msg) w = Some d ->
        resolveStatus data = Some (newStatus, removeButtons) ->
        let w' := snd (on_callback_query cq w) in
        (exists m',
            channel_message (chat_id msg) (message_id msg) w' = Some m'
            /\ reply_markup m'
               = if removeButtons then None else reply_markup msg)
        /\ findByChannelMessage (chat_id msg) (message_id msg) w'
           = Some (set_status newStatus (clock w) d)).
Proof.
  intros Hv Hq data.
  destruct (segments_token verb qualifier actor Hv Hq) as [S0 S1].
  fold data in S0, S1.
  split; [|split; [|split; [|split]]].
  - intros -> ->. by apply resolveStatus_tow_eagles.
  - intros -> Hne. apply resolveStatus_tow_other; [done|].
    rewrite S1. congruence.
  - intros -> ->. by apply resolveStatus_scene_cleared.
  - intros Hnt Hns. apply resolveStatus_rejected. unfold recognized.
    rewrite S0, S1. intros [?|[? ?]]; simplify_eq; tauto.
  - intros w cq m d newStatus removeButtons msg Hdata Hcalm Hm Hd E w'.
    rewrite <- Hdata in E.
    pose proof (on_callback_query_calm w cq _ _ m Hcalm E Hm) as Hrun.
    unfold wp in Hrun. fold msg w' in Hrun.
    destruct Hrun as (_ & Hchats & Hdocs & _).
    unfold channel_message, findByChannelMessage in *.
    rewrite Hchats, Hdocs. split.
    + rewrite find_edit_first by (intros; apply is_message_edited).
      rewrite Hm. simpl. eauto.
    + rewrite findOne_findOneAndUpdate by reflexivity.
      rewrite Hd. reflexivity.
Qed.

Lemma resolve_token_mapping_witness :
  free_of "_" "scene" = true /\ free_of "_" "cleared" = true
  /\ resolveStatus (token "scene" "cleared" "42")
     = Some ("Scene Cleared", true).
Proof.
  split; [reflexivity|]. split; [reflexivity|].
  exact (proj1 (proj2 (proj2
    (resolve_token_mapping "scene" "cleared" "42" eq_refl eq_refl)))
    eq_refl eq_refl).
Defined.

(** C10.  A token whose first segment is [tow] always resolves to a tow
    request, however many segments it has: "Eagles 24" when the second
    segment is exactly [eagles], "Other" in every other case, a missing
    second segment included. *)
Theorem tow_prefix_resolves (data : string) :
  segment 0 data = Some "tow" ->
  ((segment 1 data = Some "eagles"
    /\ resolveStatus data = Some ("Tow Requested: Eagles 24", false))
   \/ (segment 1 data <> Some "eagles"
       /\ resolveStatus data = Some ("Tow Requested: Other", false)))
  /\ resolveStatus "tow" = Some ("Tow Requested: Other", false)
  /\ resolveStatus "tow_eagles" = Some ("Tow Requested: Eagles 24", false)
  /\ resolveStatus "tow_eagles_7_8_9"
     = Some ("Tow Requested: Eagles 24", false)
  /\ resolveStatus "tow_other_7_8_9" = Some ("Tow Requested: Other", false)
  /\ resolveStatus "tow__eagles" = Some ("Tow Requested: Other", false)
  /\ resolveStatus "tow_Eagles_7" = Some ("Tow Requested: Other", false).
Proof.
  intros S0. split; [|repeat split].
  destruct (JS.eq_lit (segment 1 data) "eagles") eqn:E.
  - apply eq_lit_true in E. left. split; [done|].
    by apply resolveStatus_tow_eagles.
  - apply eq_lit_false in E. right. split; [done|].
    by apply resolveStatus_tow_other.
Qed.

Lemma tow_prefix_resolves_witness :
  segment 0 "tow" = Some "tow"
  /\ ((segment 1 "tow" = Some "eagles"
       /\ resolveStatus "tow" = Some ("Tow Requested: Eagles 24", false))
      \/ (segment 1 "tow" <> Some "eagles"
          /\ resolveStatus "tow" = Some ("Tow Requested: Other", false))).
Proof.
  split; [reflexivity|].
  exact (proj1 (tow_prefix_resolves "tow" eq_refl)).
Defined.

(** ** Resolving actions *)

(** C6.  An unrecognized action token changes neither the store nor any
    message in the channel, and nothing is broadcast; the originator is
    answered "Unknown action." (provided the answer itself is delivered). *)
Theorem unrecognized_token_rejected `{JsRuntime} (w : World)
    (cq : CallbackQuery) :
  ~ recognized (cq_data cq) ->
  let out := on_callback_query cq w in
  incidents (snd out) = incidents w
  /\ chats (snd out) = chats w
  /\ emitted (snd out) = emitted w
  /\ (hd false (faults w) = false ->
      fst out = Ok tt
      /\ answers (snd out) = answers w ++ [(cq_id cq, "Unknown action.")]).
Proof.
  intros N%resolveStatus_rejected.
  exact (on_callback_query_unknown w cq N).
Qed.

Lemma unrecognized_token_rejected_witness :
  ~ recognized "bogus_token_1"
  /\ let out := on_callback_query (press "bogus_token_1") reported_world in
     incidents (snd out) = incidents reported_world
     /\ chats (snd out) = chats reported_world
     /\ answers (snd out) = [("query-1", "Unknown action.")].
Proof.
  assert (N : ~ recognized "bogus_token_1").
  { intros [E|[E _]]; vm_compute in E; discriminate. }
  split; [exact N|].
  destruct (unrecognized_token_rejected reported_world
              (press "bogus_token_1") N) as (Hi & Hc & _ & Ha).
  split; [exact Hi|]. split; [exact Hc|].
  exact (proj2 (Ha eq_refl)).
Defined.

(** C1, as the code has it.  When no document matches the message of a
    recognized action, the store is left as it is and nothing is
    broadcast, whatever fails; but the handler edits the channel message
    before it consults the store, so in a calm world the message gets the
    audit line (and loses its buttons for the terminal status) and the
    actor is answered "Status updated to: ...". *)
Theorem action_without_incident `{JsRuntime} (w : World) (cq : CallbackQuery) :
  let msg := cq_message cq in
  recognized (cq_data cq) ->
  findByChannelMessage (chat_id msg) (message_id msg) w = None ->
  let out := on_callback_query cq w in
  incidents (snd out) = incidents w
  /\ emitted (snd out) = emitted w
  /\ (forall m,
        calm w ->
        channel_message (chat_id msg) (message_id msg) w = Some m ->
        exists newStatus removeButtons,
          resolveStatus (cq_data cq) = Some (newStatus, removeButtons)
          /\ fst out = Ok tt
          /\ channel_message (chat_id msg) (message_id msg) (snd out)
             = Some (edited (updated_text cq newStatus (clock w))
                       (if removeButtons then None else reply_markup msg) m)
          /\ answers (snd out)
             = answers w
               ++ [(cq_id cq, "Status updated to: " +:+ newStatus)]).
Proof.
  intros msg R N out.
  pose proof (on_callback_query_no_match w cq N) as [Hi He].
  fold out in Hi, He. split; [exact Hi|]. split; [exact He|].
  intros m Hcalm Hm.
  apply resolveStatus_recognized in R as (newStatus & removeButtons & E).
  exists newStatus, removeButtons. split; [exact E|].
  pose proof (on_callback_query_calm w cq _ _ m Hcalm E Hm) as Hrun.
  unfold wp in Hrun. fold msg out in Hrun.
  destruct Hrun as (Hr & Hchats & _ & _ & Ha).
  split; [exact Hr|]. split; [|exact Ha].
  unfold channel_message in *. rewrite Hchats.
  rewrite find_edit_first by (intros; apply is_message_edited).
  rewrite Hm. reflexivity.
Qed.

Lemma action_without_incident_witness :
  let cq := press "tow_eagles_42" in
  recognized (cq_data cq)
  /\ findByChannelMessage sample_group 2 orphaned_world = None
  /\ incidents (snd (on_callback_query cq orphaned_world)) = []
  /\ emitted (snd (on_callback_query cq orphaned_world))
     = emitted orphaned_world.
Proof.
  intros cq.
  assert (R : recognized (cq_data cq)) by (left; reflexivity).
  assert (N : findByChannelMessage sample_group 2 orphaned_world = None)
    by reflexivity.
  split; [exact R|]. split; [exact N|].
  destruct (action_without_incident orphaned_world cq R N) as (Hi & He & _).
  split; [exact Hi | exact He].
Defined.

(** C1 as stated fails: the store has no document for the message, and
    still the message in the channel is rewritten and the actor is told
    that the status was updated. *)
Lemma action_without_incident_counterexample :
  let cq := press "tow_eagles_42" in
  let out := on_callback_query cq orphaned_world in
  findByChannelMessage sample_group 2 orphaned_world = None
  /\ channel_message sample_group 2 (snd out)
     <> channel_message sample_group 2 orphaned_world
  /\ chats (snd out) <> chats orphaned_world
  /\ answers (snd out)
     = [("query-1", "Status updated to: Tow Requested: Eagles 24")].
Proof.
  intros cq out. split; [reflexivity|].
  assert (D : channel_message sample_group 2 (snd out)
              <> channel_message sample_group 2 orphaned_world).
  { intros E.
    apply (f_equal (fun o => match o with
                             | Some m => String.length (JS.to_string (text m))
                             | None => O
                             end)) in E.
    vm_compute in E. discriminate E. }
  split; [exact D|]. split; [|reflexivity].
  intros E. apply D. unfold channel_message. rewrite E. reflexivity.
Qed.

(** C8.  A status update writes [status] and [last_updated] and nothing
    else: [$set] keeps the identifier, reporter, location, channel message
    reference and creation time of the document and stamps it with the
    server's clock; and whatever a callback does to the store, each
    document is either untouched or updated in exactly that way. *)
Theorem status_update_frame `{JsRuntime} (w : World) (cq : CallbackQuery) :
  (forall newStatus now d,
      same_frame d (set_status newStatus now d)
      /\ status (set_status newStatus now d) = newStatus
      /\ last_updated (set_status newStatus now d) = Some now)
  /\ Forall2
       (fun d d' =>
          d' = d
          \/ (same_frame d d'
              /\ last_updated d' = Some (clock w)
              /\ exists removeButtons,
                   resolveStatus (cq_data cq)
                   = Some (status d', removeButtons)))
       (incidents w) (incidents (snd (on_callback_query cq w))).
Proof.
  split; [intros; repeat split|].
  destruct (on_callback_query_store w cq)
    as [-> | (newStatus & removeButtons & E & ->)].
  - apply Forall2_diag. by left.
  - eapply Forall2_impl; [apply findOneAndUpdate_pointwise|].
    intros d d' [->| ->]; [by left | right].
    split; [apply set_status_frame|]. split; [reflexivity|].
    exists removeButtons. exact E.
Qed.

(** ** Deleting an incident *)

Section DeleteHandler.

Context `{JsRuntime}.

Lemma delete_incident_calm w incidentId oid :
  ObjectId_fromString incidentId = Some oid ->
  calm w ->
  wp (delete_incident incidentId)
    (fun r w' =>
       match Collection.findOne (by_id oid) (incidents w) with
       | None =>
           r = Ok {| status_code := 404;
                     body := message_body "Incident not found." |}
           /\ w' = w
       | Some _ =>
           r = Ok {| status_code := 200;
                     body := message_body "Incident deleted successfully." |}
           /\ incidents w' = snd (Collection.deleteOne (by_id oid) (incidents w))
           /\ emitted w' = emitted w ++ [incident_deleted incidentId]
           /\ chats w' = chats w
       end) w.
Proof.
  intros Hoid Hcalm. unfold calm in Hcalm.
  unfold delete_incident, new_ObjectId. rewrite Hoid.
  wp_run; try congruence; simplify_eq;
    repeat match goal with
    | Hf : Collection.findOne _ _ = _ |- _ => rewrite Hf
    end; auto.
  match goal with
  | Hf : Collection.findOne _ _ = Some _,
    Hc : (fst (Collection.deleteOne _ _) =? 1) = false |- _ =>
      rewrite (deleteOne_count _ _ _ Hf) in Hc; discriminate
  end.
Qed.

(** An id the constructor refuses: the exception is caught, nothing else
    happens. *)
Lemma delete_incident_malformed w incidentId :
  ObjectId_fromString incidentId = None ->
  delete_incident incidentId w
  = (Ok {| status_code := 500; body := BodyText "Error deleting incident." |},
     w).
Proof.
  intros Hoid. unfold delete_incident, new_ObjectId, try_catch, bind, throw.
  rewrite Hoid. reflexivity.
Qed.

(** A request never broadcasts anything but the deletion of the
    identifier it names, and that only with a 200. *)
Lemma delete_incident_events w incidentId :
  wp (delete_incident incidentId)
    (fun r w' =>
       (emitted w' = emitted w /\ incidents w' = incidents w)
       \/ (emitted w' = emitted w ++ [incident_deleted incidentId]
           /\ exists resp, r = Ok resp /\ status_code resp = 200)) w.
Proof.
  unfold delete_incident. wp_run; auto; try (right; split; eauto; fail).
  all: left; split; [reflexivity|].
  all: match goal with
       | Hc : (fst (Collection.deleteOne ?f ?l) =? 1) = false |- _ =>
           destruct (Collection.findOne f l) as [d|] eqn:Hf;
           [ rewrite (deleteOne_count _ _ _ Hf) in Hc; discriminate
           | rewrite (deleteOne_none _ _ Hf); reflexivity ]
       end.
Qed.

End DeleteHandler.

(** C7, as the code has it.  [DELETE /incidents/{id}] on a reachable store
    without backend failure.  An id that [new ObjectId] refuses is answered
    500, with nothing broadcast and the store as before.  For an id it
    accepts: without a document of that id the answer is 404 with a
    message, nothing is broadcast and the store is as before; with one, the
    answer is 200 with a message, exactly one [incident_deleted] event
    carrying the id is added, no document of that id is left in [listAll],
    and the other documents stay. *)
Theorem delete_incident_outcomes `{JsRuntime} (w : World)
    (incidentId : string) :
  calm w ->
  List.NoDup (map _id (listAll w)) ->
  let out := delete_incident incidentId w in
  match ObjectId_fromString incidentId with
  | None =>
      fst out = Ok {| status_code := 500;
                      body := BodyText "Error deleting incident." |}
      /\ emitted (snd out) = emitted w
      /\ listAll (snd out) = listAll w
  | Some oid =>
      (Collection.findOne (by_id oid) (listAll w) = None ->
       fst out = Ok {| status_code := 404;
                       body := message_body "Incident not found." |}
       /\ emitted (snd out) = emitted w
       /\ listAll (snd out) = listAll w)
      /\ (forall d,
            Collection.findOne (by_id oid) (listAll w) = Some d ->
            fst out
            = Ok {| status_code := 200;
                    body := message_body "Incident deleted successfully." |}
            /\ emitted (snd out) = emitted w ++ [incident_deleted incidentId]
            /\ (forall j, In j (listAll (snd out)) -> _id j <> oid)
            /\ (forall j, _id j <> oid ->
                          In j (listAll (snd out)) <-> In j (listAll w)))
  end.
Proof.
  intros Hcalm ND out.
  destruct (ObjectId_fromString incidentId) as [oid|] eqn:Hoid.
  2: { unfold out. rewrite (delete_incident_malformed w _ Hoid). auto. }
  pose proof (delete_incident_calm w incidentId oid Hoid Hcalm) as Hrun.
  unfold wp in Hrun. fold out in Hrun. unfold listAll in *.
  split.
  - intros N. rewrite N in Hrun. destruct Hrun as [Hr ->]. auto.
  - intros d Hd. rewrite Hd in Hrun. destruct Hrun as (Hr & Hi & He & _).
    split; [exact Hr|]. split; [exact He|]. rewrite Hi. split.
    + intros j. by apply deleteOne_by_id_gone.
    + intros j Hj. split; [apply deleteOne_incl|].
      intros Hin. apply deleteOne_others; [done|]. by apply by_id_false.
Qed.

Lemma delete_incident_outcomes_witness :
  let id := "000000000000000000000000" in
  let w := reported_world in
  calm w
  /\ List.NoDup (map _id (listAll w))
  /\ fst (delete_incident id w)
     = Ok {| status_code := 200;
             body := message_body "Incident deleted successfully." |}
  /\ emitted (snd (delete_incident id w))
     = emitted w ++ [incident_deleted id]
  /\ listAll (snd (delete_incident id w)) = [].
Proof.
  intros id w.
  assert (Hcalm : calm w) by reflexivity.
  assert (ND : List.NoDup (map _id (listAll w))).
  { vm_compute. constructor; [simpl; tauto | constructor]. }
  split; [exact Hcalm|]. split; [exact ND|].
  pose proof (delete_incident_outcomes w id Hcalm ND) as Hout.
  change (ObjectId_fromString id) with (Some id) in Hout.
  destruct Hout as [_ Hsome].
  destruct (Hsome sample_incident eq_refl) as (Hr & He & _).
  split; [exact Hr|]. split; [exact He | reflexivity].
Defined.

(** C7 as stated fails for an id that is not an ObjectId: no document has
    the id "zz", and the answer is 500, not 404. *)
Lemma delete_malformed_id_counterexample :
  Forall (fun d => _id d <> "zz") (listAll reported_world)
  /\ fst (delete_incident "zz" reported_world)
     = Ok {| status_code := 500;
             body := BodyText "Error deleting incident." |}
  /\ emitted (snd (delete_incident "zz" reported_world))
     = emitted reported_world.
Proof.
  split; [|split; reflexivity].
  repeat constructor. discriminate.
Qed.

(** ** The unique index is kept *)

Lemma findOneAndUpdate_ids filter newStatus now docs :
  map _id (snd (Collection.findOneAndUpdate filter
                  (set_status newStatus now) docs))
  = map _id docs.
Proof.
  induction docs as [|d docs IH]; simpl; [reflexivity|].
  destruct (filter d); simpl; [reflexivity | by rewrite IH].
Qed.

Lemma deleteOne_unique filter docs :
  List.NoDup (map _id docs) ->
  List.NoDup (map _id (snd (Collection.deleteOne filter docs))).
Proof.
  induction docs as [|d docs IH]; simpl; [auto|].
  intros ND. apply List.NoDup_cons_iff in ND as [Hd ND].
  destruct (filter d); simpl; [exact ND|].
  constructor; [|by apply IH].
  intros Hin. apply Hd. apply in_map_iff in Hin as (j & Hj & Hin).
  apply in_map_iff. exists j. split; [exact Hj|].
  by apply deleteOne_incl in Hin.
Qed.

Lemma NoDup_snoc (x : string) (l : list string) :
  ~ In x l -> List.NoDup l -> List.NoDup (l ++ [x]).
Proof.
  induction l as [|y l IH]; simpl; intros Hx ND.
  - constructor; [tauto | constructor].
  - apply List.NoDup_cons_iff in ND as [Hy ND]. constructor.
    + rewrite in_app_iff. simpl. intros [Hin|[E|[]]]; [tauto|].
      apply Hx. by left.
    + apply IH; [tauto | exact ND].
Qed.

Lemma insert_unique oid d docs :
  existsb (by_id oid) docs = false -> _id d = oid ->
  List.NoDup (map _id docs) -> List.NoDup (map _id (docs ++ [d])).
Proof.
  intros Hfresh Hd ND. rewrite map_app. simpl.
  apply NoDup_snoc; [|exact ND].
  intros Hin. apply in_map_iff in Hin as (j & Hj & Hin).
  assert (E : existsb (by_id oid) docs = true).
  { apply existsb_exists. exists j. split; [exact Hin|].
    apply by_id_true. congruence. }
  congruence.
Qed.

Section Invariant.

Context `{JsRuntime}.

Lemma on_location_unique gid msg w :
  unique_ids w -> wp (on_location gid msg) (fun _ w' => unique_ids w') w.
Proof.
  intros Hu. unfold on_location, unique_ids in *.
  wp_run; auto; by eapply insert_unique.
Qed.

Lemma on_callback_query_unique cq w :
  unique_ids w -> wp (on_callback_query cq) (fun _ w' => unique_ids w') w.
Proof.
  intros Hu. unfold unique_ids in *.
  destruct (on_callback_query_store w cq) as [E | (st & rb & _ & E)];
    unfold wp; rewrite E; [exact Hu|].
  by rewrite findOneAndUpdate_ids.
Qed.

Lemma delete_incident_unique incidentId w :
  unique_ids w ->
  wp (delete_incident incidentId) (fun _ w' => unique_ids w') w.
Proof.
  intros Hu. unfold delete_incident, unique_ids in *.
  wp_run; auto; by apply deleteOne_unique.
Qed.

Lemma get_incidents_same w : snd (get_incidents w) = w \/
  exists rest, snd (get_incidents w) = set_faults rest w.
Proof.
  assert (Hrun : wp get_incidents
                   (fun _ w' => w' = w \/ exists rest, w' = set_faults rest w)
                   w).
  { unfold get_incidents. wp_run; eauto. }
  exact Hrun.
Qed.

Lemma on_connection_same w : snd (on_connection w) = w \/
  exists rest, snd (on_connection w) = set_faults rest w.
Proof.
  assert (Hrun : wp on_connection
                   (fun _ w' => w' = w \/ exists rest, w' = set_faults rest w)
                   w).
  { unfold on_connection. wp_run; eauto. }
  exact Hrun.
Qed.

(** Every world the server can be in has pairwise distinct [_id]s. *)
Lemma reachable_unique gid w : reachable gid w -> unique_ids w.
Proof.
  induction 1 as [w E | r w _ IH | now script w _ IH].
  - unfold unique_ids. rewrite E. constructor.
  - destruct r as [msg | cq | incidentId | |]; simpl.
    + by apply on_location_unique.
    + by apply on_callback_query_unique.
    + by apply delete_incident_unique.
    + destruct (get_incidents_same w) as [-> | [rest ->]]; exact IH.
    + destruct (on_connection_same w) as [-> | [rest ->]]; exact IH.
  - exact IH.
Qed.

End Invariant.

(** ** Report ingestion *)

Lemma on_location_calm `{JsRuntime} gid w msg :
  calm w ->
  existsb (by_id (ObjectIds.generate (oid_counter w))) (incidents w) = false ->
  wp (on_location gid msg)
    (fun r w' =>
       let from := lm_from msg in
       let loc := lm_location msg in
       let d := {| _id := ObjectIds.generate (oid_counter w);
                   reporter_id := user_id from;
                   reporter_name := first_name from;
                   latitude := loc_latitude loc;
                   longitude := loc_longitude loc;
                   status := "active";
                   telegram_message_id := next_message_id w + 1;
                   telegram_chat_id := gid;
                   timestamp := clock w;
                   last_updated := None |} in
       r = Ok tt
       /\ incidents w' = incidents w ++ [d]
       /\ emitted w' = emitted w ++ [new_incident d]
       /\ chats w'
          = chats w
            ++ [ {| message_id := next_message_id w; chat_id := gid;
                    text := None; caption := None; location := Some loc;
                    reply_markup := None |};
                 {| message_id := next_message_id w + 1; chat_id := gid;
                    text := Some (messageText from loc); caption := None;
                    location := None;
                    reply_markup := Some (inlineKeyboard from) |};
                 {| message_id := next_message_id w + 1 + 1;
                    chat_id := lm_chat_id msg;
                    text := Some "Your location has been forwarded to emergency response services.";
                    caption := None; location := None;
                    reply_markup := None |} ]) w.
Proof.
  intros Hcalm Hfresh. unfold calm in Hcalm. unfold on_location.
  wp_run; try congruence.
  repeat split; try reflexivity.
  rewrite <- !app_assoc. destruct (lm_location msg). reflexivity.
Qed.

(** C3, as the code has it.  Ingestion does not look at the bounds of the
    location.  For every report, when the sends and the insert succeed,
    exactly one document is added to the store; it has status "active" and
    refers to the companion message just posted in the group, and one
    [new_incident] event carries it. *)
Theorem report_ingested `{JsRuntime} (gid : Z) (w : World)
    (msg : LocationMessage) :
  calm w ->
  existsb (by_id (ObjectIds.generate (oid_counter w))) (listAll w) = false ->
  let out := on_location gid msg w in
  exists d m,
    listAll (snd out) = listAll w ++ [d]
    /\ emitted (snd out) = emitted w ++ [new_incident d]
    /\ status d = "active"
    /\ last_updated d = None
    /\ reporter_id d = user_id (lm_from msg)
    /\ reporter_name d = first_name (lm_from msg)
    /\ latitude d = loc_latitude (lm_location msg)
    /\ longitude d = loc_longitude (lm_location msg)
    /\ In m (chats (snd out))
    /\ chat_id m = gid
    /\ message_id m = next_message_id w + 1
    /\ telegram_chat_id d = chat_id m
    /\ telegram_message_id d = message_id m
    /\ text m = Some (messageText (lm_from msg) (lm_location msg))
    /\ reply_markup m = Some (inlineKeyboard (lm_from msg)).
Proof.
  intros Hcalm Hfresh out.
  pose proof (on_location_calm gid w msg Hcalm Hfresh) as Hrun.
  unfold wp in Hrun. fold out in Hrun. cbv zeta in Hrun.
  destruct Hrun as (_ & Hi & He & Hc).
  eexists _,
    {| message_id := next_message_id w + 1; chat_id := gid;
       text := Some (messageText (lm_from msg) (lm_location msg));
       caption := None; location := None;
       reply_markup := Some (inlineKeyboard (lm_from msg)) |}.
  unfold listAll.
  split; [exact Hi|]. split; [exact He|].
  do 6 (split; [reflexivity|]).
  split; [|repeat split; reflexivity].
  rewrite Hc. apply in_app_iff. right. right. left. reflexivity.
Qed.

Lemma report_ingested_witness :
  let w := empty_world in
  calm w
  /\ existsb (by_id (ObjectIds.generate (oid_counter w))) (listAll w) = false
  /\ exists d m,
       listAll (snd (on_location sample_group sample_report w)) = [d]
       /\ status d = "active"
       /\ In m (chats (snd (on_location sample_group sample_report w)))
       /\ telegram_chat_id d = chat_id m
       /\ telegram_message_id d = message_id m.
Proof.
  intros w. split; [reflexivity|]. split; [reflexivity|].
  destruct (report_ingested sample_group w sample_report eq_refl eq_refl)
    as (d & m & Hl & _ & Hs & _ & _ & _ & _ & _ & Hm & _ & _ & Hc & Hi & _).
  exists d, m. auto.
Defined.

(** C3 as stated fails: a report at latitude 91 is not rejected; it is
    forwarded to the group, stored and broadcast like any other. *)
Lemma out_of_bounds_report_accepted :
  let w' := snd (on_location sample_group far_report empty_world) in
  in_bounds (lm_location far_report) = false
  /\ map (fun d => (status d, latitude d)) (listAll w')
     = [("active", (91 # 1)%Q)]
  /\ map chat_id (chats w') = [sample_group; sample_group; 42]
  /\ length (emitted w') = 1%nat.
Proof. repeat split. Qed.

(** ** Wire shape *)

(** C4, as the code has it.  A document goes out as a JSON object whose
    members are [_id], [reporter_id], [reporter_name], [latitude],
    [longitude], [status], [telegram_message_id], [telegram_chat_id],
    [timestamp], and [last_updated] once its status was updated; this is
    the form of the elements of [GET /incidents] and of the payloads of
    [new_incident] and [incident_updated]. *)
Theorem wire_shape `{JsRuntime} (d : Incident) (w : World) :
  member_names (Incident_toJSON d)
  = ["_id"; "reporter_id"; "reporter_name"; "latitude"; "longitude";
     "status"; "telegram_message_id"; "telegram_chat_id"; "timestamp"]
    ++ match last_updated d with
       | Some _ => ["last_updated"]
       | None => []
       end
  /\ Event_toJSON (new_incident d) = Incident_toJSON d
  /\ Event_toJSON (incident_updated d) = Incident_toJSON d
  /\ (fst (get_incidents w)
      = Ok {| status_code := 200;
              body := BodyJSON (JArray (map Incident_toJSON (listAll w))) |}
      \/ fst (get_incidents w)
         = Ok {| status_code := 500;
                 body := BodyText "Error fetching incidents." |}).
Proof.
  split; [|split; [reflexivity|split; [reflexivity|]]].
  - unfold Incident_toJSON, member_names. rewrite map_app.
    destruct (last_updated d); reflexivity.
  - assert (Hrun : wp get_incidents
                     (fun r _ =>
                        r = Ok {| status_code := 200;
                                  body := BodyJSON
                                            (JArray (map Incident_toJSON
                                                       (listAll w))) |}
                        \/ r = Ok {| status_code := 500;
                                     body := BodyText
                                               "Error fetching incidents." |})
                     w).
    { unfold get_incidents. wp_run; auto. }
    exact Hrun.
Qed.

(** C4 as stated fails: the stored report goes out with a member [_id],
    and with no member [id]. *)
Lemma wire_shape_counterexample :
  exists members,
    fst (get_incidents reported_world)
    = Ok {| status_code := 200;
            body := BodyJSON (JArray [JObject members]) |}
    /\ map fst members
       = ["_id"; "reporter_id"; "reporter_name"; "latitude"; "longitude";
          "status"; "telegram_message_id"; "telegram_chat_id"; "timestamp"]
    /\ ~ In "id" (map fst members).
Proof.
  eexists. split; [reflexivity|]. split; [reflexivity|].
  simpl. intros H. repeat (destruct H as [H|H]; [discriminate H|]). exact H.
Qed.

(** ** The dashboard: list items and markers *)




Lemma banner_display_insert (m : gmap string Marker) k x :
  banner_display (<[k:=x]> m) = "none".
Proof.
  unfold banner_display. rewrite bool_decide_eq_false_2; [reflexivity|].
  apply insert_non_empty.
Qed.

Section Part001Facts.

Context `{JsRuntime}.
Import Part001.






End Part001Facts.

Section Part000Facts.

Context `{JsRuntime}.
Import Part000.

Lemma add_present_part000 incident p :
  is_Some (markers (addIncidentToMapAndList incident p) !! _id incident).
Proof.
  unfold addIncidentToMapAndList. case_bool_decide as E; [exact E|].
  simpl. rewrite lookup_insert_eq. eauto.
Qed.

Lemma add_twice_part000 incident p :
  addIncidentToMapAndList incident (addIncidentToMapAndList incident p)
  = addIncidentToMapAndList incident p.
Proof.
  unfold addIncidentToMapAndList at 1.
  rewrite bool_decide_eq_true_2 by apply add_present_part000. reflexivity.
Qed.




End Part000Facts.


(** ** Polling reconciliation *)

Lemma change_first_ids incidentId f l :
  (forall li, item_incident (f li) = item_incident li) ->
  map item_incident (change_first incidentId f l) = map item_incident l.
Proof.
  intros Hf. induction l as [|li l IH]; simpl; [reflexivity|].
  destruct (has_item incidentId li); simpl; [by rewrite Hf | by rewrite IH].
Qed.

Lemma remove_first_ids incidentId l :
  List.NoDup (map item_incident l) ->
  List.NoDup (map item_incident (remove_first incidentId l))
  /\ list_to_set (map item_incident (remove_first incidentId l))
     = (list_to_set (map item_incident l) : gset string) ∖ {[ incidentId ]}.
Proof.
  induction l as [|li l IH]; simpl; intros ND.
  - split; [constructor | set_solver].
  - apply List.NoDup_cons_iff in ND as [Hli ND].
    destruct (IH ND) as [IHnd IHset].
    unfold has_item.
    destruct (String.eqb_spec (item_incident li) incidentId) as [E|E]; simpl.
    + split; [exact ND|]. subst incidentId.
      assert (item_incident li ∉ (list_to_set (map item_incident l) : gset string)).
      { rewrite elem_of_list_to_set, list_elem_of_In. exact Hli. }
      set_solver.
    + split.
      * constructor; [|exact IHnd].
        intros Hin. apply Hli.
        assert (Hs : item_incident li
                     ∈ (list_to_set (map item_incident
                                       (remove_first incidentId l))
                        : gset string)).
        { rewrite elem_of_list_to_set, list_elem_of_In. exact Hin. }
        rewrite IHset in Hs.
        apply elem_of_difference in Hs as [Hs _].
        by rewrite elem_of_list_to_set, list_elem_of_In in Hs.
      * rewrite IHset. set_solver.
Qed.

Lemma ids_of_filter_out (S : gset string) (l : list Incident) :
  ids_of (List.filter (fun inc => negb (bool_decide (_id inc ∈ S))) l)
  = ids_of l ∖ S.
Proof.
  unfold ids_of. induction l as [|d l IH]; simpl; [set_solver|].
  case_bool_decide as E; simpl; set_solver.
Qed.

Section Polling.

Context `{JsRuntime}.
Import Part001.

Lemma update_consistent incident p :
  consistent p -> consistent (updateIncidentStatusInList incident p).
Proof.
  unfold consistent, marker_ids, item_ids. intros (Hm & Hi & Hn).
  unfold updateIncidentStatusInList. destruct p; simpl in *.
  rewrite change_first_ids by reflexivity.
  split; [|split; assumption].
  rewrite <- Hm. apply leibniz_equiv, dom_alter.
Qed.

Lemma add_displayed incident isNew p :
  displayedIncidentIds (addIncidentToMapAndList incident isNew p)
  = {[ _id incident ]} ∪ displayedIncidentIds p.
Proof.
  unfold addIncidentToMapAndList. case_bool_decide as E; simpl.
  - set_solver.
  - reflexivity.
Qed.

Lemma add_lastPoll incident isNew p :
  lastPollIncidents (addIncidentToMapAndList incident isNew p)
  = lastPollIncidents p.
Proof.
  unfold addIncidentToMapAndList. case_bool_decide; reflexivity.
Qed.

Lemma add_consistent incident isNew p :
  consistent p -> consistent (addIncidentToMapAndList incident isNew p).
Proof.
  intros Hc. unfold addIncidentToMapAndList. case_bool_decide as E.
  - by apply update_consistent.
  - destruct Hc as (Hm & Hi & Hn). unfold consistent, marker_ids, item_ids in *.
    destruct p; simpl in *. split; [|split].
    + rewrite dom_insert_L, Hm. reflexivity.
    + rewrite Hi. reflexivity.
    + constructor; [|exact Hn]. intros Hin. apply E. rewrite <- Hi.
      rewrite elem_of_list_to_set, list_elem_of_In. exact Hin.
Qed.

Lemma remove_displayed incidentId p :
  displayedIncidentIds (removeIncidentFromMapAndList incidentId p)
  = displayedIncidentIds p ∖ {[ incidentId ]}.
Proof. reflexivity. Qed.

Lemma remove_consistent incidentId p :
  consistent p -> consistent (removeIncidentFromMapAndList incidentId p).
Proof.
  unfold consistent, marker_ids, item_ids. intros (Hm & Hi & Hn).
  destruct (remove_first_ids incidentId _ Hn) as [Hn' Hs].
  destruct p; simpl in *. split; [|split].
  - rewrite dom_delete_L, Hm. reflexivity.
  - rewrite Hs, Hi. reflexivity.
  - exact Hn'.
Qed.

Lemma add_all_displayed isNew l p :
  displayedIncidentIds
    (fold_left (fun p incident => addIncidentToMapAndList incident isNew p)
       l p)
  = displayedIncidentIds p ∪ ids_of l.
Proof.
  revert p. unfold ids_of. induction l as [|d l IH]; intros p; simpl.
  - set_solver.
  - rewrite IH, add_displayed. set_solver.
Qed.

Lemma add_all_lastPoll isNew l p :
  lastPollIncidents
    (fold_left (fun p incident => addIncidentToMapAndList incident isNew p)
       l p)
  = lastPollIncidents p.
Proof.
  revert p. induction l as [|d l IH]; intros p; simpl; [reflexivity|].
  rewrite IH. apply add_lastPoll.
Qed.

Lemma add_all_consistent isNew l p :
  consistent p ->
  consistent
    (fold_left (fun p incident => addIncidentToMapAndList incident isNew p)
       l p).
Proof.
  revert p. induction l as [|d l IH]; intros p Hc; simpl; [exact Hc|].
  apply IH. by apply add_consistent.
Qed.

Lemma remove_all_displayed l p :
  displayedIncidentIds
    (fold_left (fun p incident =>
                  removeIncidentFromMapAndList (_id incident) p) l p)
  = displayedIncidentIds p ∖ ids_of l.
Proof.
  revert p. unfold ids_of. induction l as [|d l IH]; intros p; simpl.
  - set_solver.
  - rewrite IH, remove_displayed. set_solver.
Qed.

Lemma remove_all_consistent l p :
  consistent p ->
  consistent
    (fold_left (fun p incident =>
                  removeIncidentFromMapAndList (_id incident) p) l p).
Proof.
  revert p. induction l as [|d l IH]; intros p Hc; simpl; [exact Hc|].
  apply IH. by apply remove_consistent.
Qed.

(** What one poll does to the set of displayed ids: the ids of the
    snapshot are added, and the ids of the previous poll that are not in
    the snapshot are removed. *)
Lemma fetch_displayed currentIncidents p :
  displayedIncidentIds (fetchNewIncidents (Some currentIncidents) p)
  = (displayedIncidentIds p ∪ ids_of currentIncidents)
    ∖ (ids_of (lastPollIncidents p) ∖ ids_of currentIncidents).
Proof.
  unfold fetchNewIncidents. cbn [displayedIncidentIds with_lastPoll].
  rewrite remove_all_displayed, add_all_lastPoll, add_all_displayed.
  fold (ids_of currentIncidents).
  rewrite !ids_of_filter_out.
  apply set_eq. intros x.
  destruct (decide (x ∈ displayedIncidentIds p)); set_solver.
Qed.

Lemma fetch_consistent response p :
  consistent p -> consistent (fetchNewIncidents response p).
Proof.
  intros Hc. destruct response as [currentIncidents|]; [|exact Hc].
  unfold fetchNewIncidents. cbv zeta.
  match goal with
  | |- consistent (with_lastPoll _ ?q) =>
      assert (Hq : consistent q)
        by (apply remove_all_consistent, add_all_consistent, Hc);
      exact Hq
  end.
Qed.

(** Every listener keeps the page consistent, so every page the script
    can be in is. *)
Lemma initial_consistent : consistent initial.
Proof. split; [reflexivity|]. split; [reflexivity|]. constructor. Qed.

Lemma on_event_consistent e p : consistent p -> consistent (on_event e p).
Proof.
  intros Hc. destruct e as [i | i | incidentId | l]; simpl.
  - by apply add_consistent.
  - by apply update_consistent.
  - by apply remove_consistent.
  - unfold on_initial_incidents. cbv zeta.
    match goal with
    | |- consistent (with_lastPoll _ ?q) =>
        assert (Hq : consistent q) by (apply add_all_consistent, Hc);
        exact Hq
    end.
Qed.

End Polling.




(** ** The scenarios of the specification, run *)

(** Report at (-25.75, 28.23) by Alice, then [scene_cleared_42], then the
    deletion of the stored document. *)
Example scenario_report_clear_delete :
  let w1 := reported_world in
  let w2 := snd (on_callback_query (press "scene_cleared_42") w1) in
  let w3 := snd (delete_incident (_id sample_incident) w2) in
  listAll w1 = [sample_incident]
  /\ map status (listAll w2) = ["Scene Cleared"]
  /\ option_map reply_markup (channel_message sample_group 2 w2) = Some None
  /\ listAll w3 = []
  /\ emitted w3
     = [new_incident sample_incident;
        incident_updated
          (set_status "Scene Cleared" (clock empty_world) sample_incident);
        incident_deleted (_id sample_incident)].
Proof. repeat split. Qed.

(** [bogus_token_1] against the stored report. *)
Example scenario_bogus_token :
  let out := on_callback_query (press "bogus_token_1") reported_world in
  listAll (snd out) = [sample_incident]
  /\ chats (snd out) = chats reported_world
  /\ answers (snd out) = [("query-1", "Unknown action.")].
Proof. repeat split. Qed.

(** A dashboard that hears every event of the first scenario ends with an
    empty page. *)
Example scenario_dashboard :
  let w3 := snd (delete_incident (_id sample_incident)
                   (snd (on_callback_query (press "scene_cleared_42")
                           reported_world))) in
  let page := fold_left (fun p e => Part001.on_event e p) (emitted w3)
                Part001.initial in
  Part001.view page = Part001.view Part001.initial
  /\ Part001.alerts page = [500].
Proof. split; vm_compute; reflexivity. Qed.

(* ================================================================== *)
(** * Further properties of the handlers                               *)
(* ================================================================== *)

(** Two readings of the same fault script agree. *)
Ltac same_script :=
  repeat match goal with
         | H1 : faults ?w = _, H2 : faults ?w = _ |- _ =>
             rewrite H1 in H2; simplify_eq/=
         end.

(** ** Report ingestion under failures *)

(** X1.  Whatever fails, the location handler ends without an exception,
    answers no callback, and either stores nothing and broadcasts nothing,
    or stores exactly one new document, with status "active" and no
    [last_updated], and broadcasts exactly one [new_incident] event that
    carries this document. *)
Theorem on_location_store_and_fanout `{JsRuntime} (gid : Z)
    (msg : LocationMessage) (w : World) :
  let out := on_location gid msg w in
  fst out = Ok tt
  /\ answers (snd out) = answers w
  /\ ((incidents (snd out) = incidents w /\ emitted (snd out) = emitted w)
      \/ exists d,
           incidents (snd out) = incidents w ++ [d]
           /\ emitted (snd out) = emitted w ++ [new_incident d]
           /\ status d = "active"
           /\ last_updated d = None
           /\ reporter_id d = user_id (lm_from msg)
           /\ timestamp d = clock w).
Proof.
  assert (Hrun : wp (on_location gid msg)
    (fun r w' =>
       r = Ok tt
       /\ answers w' = answers w
       /\ ((incidents w' = incidents w /\ emitted w' = emitted w)
           \/ exists d,
                incidents w' = incidents w ++ [d]
                /\ emitted w' = emitted w ++ [new_incident d]
                /\ status d = "active"
                /\ last_updated d = None
                /\ reporter_id d = user_id (lm_from msg)
                /\ timestamp d = clock w)) w).
  { unfold on_location. wp_run;
      (split; [reflexivity|]); (split; [reflexivity|]);
      first [ left; split; reflexivity
            | right; eexists; repeat split; reflexivity ]. }
  exact Hrun.
Qed.

(** X2.  When the first Telegram call of the location handler fails,
    nothing is posted to the group, nothing is stored and nothing is
    broadcast; the reporter is sent the apology, unless that send fails
    too. *)
Theorem on_location_delivery_failure `{JsRuntime} (gid : Z)
    (msg : LocationMessage) (w : World) (rest : list bool) :
  faults w = true :: rest ->
  let w' := snd (on_location gid msg w) in
  incidents w' = incidents w
  /\ emitted w' = emitted w
  /\ chats w'
     = chats w
       ++ (if hd false rest then []
           else [ {| message_id := next_message_id w;
                     chat_id := lm_chat_id msg;
                     text := Some "Sorry, there was an error processing your location.";
                     caption := None; location := None;
                     reply_markup := None |} ]).
Proof.
  intros Hf.
  assert (Hrun : wp (on_location gid msg)
    (fun _ w' =>
       incidents w' = incidents w
       /\ emitted w' = emitted w
       /\ chats w'
          = chats w
            ++ (if hd false rest then []
                else [ {| message_id := next_message_id w;
                          chat_id := lm_chat_id msg;
                          text := Some "Sorry, there was an error processing your location.";
                          caption := None; location := None;
                          reply_markup := None |} ])) w).
  { unfold on_location. wp_run; same_script;
      rewrite ?app_nil_r; auto. }
  exact Hrun.
Qed.

Lemma on_location_delivery_failure_witness :
  let w := environment 0 [true] empty_world in
  faults w = [true]
  /\ incidents (snd (on_location sample_group sample_report w)) = []
  /\ map chat_id (chats (snd (on_location sample_group sample_report w)))
     = [42].
Proof.
  intros w. split; [reflexivity|].
  destruct (on_location_delivery_failure sample_group sample_report w []
              eq_refl) as (Hi & _ & Hc).
  split; [exact Hi|]. rewrite Hc. reflexivity.
Defined.

(** X3.  No rollback: when both sends to the group succeed and the insert
    fails, the location and the companion message stay in the group,
    while nothing is stored and nothing is broadcast; the reporter is
    sent the apology, unless that send fails too. *)
Theorem on_location_no_rollback `{JsRuntime} (gid : Z)
    (msg : LocationMessage) (w : World) (rest : list bool) :
  faults w = false :: false :: true :: rest ->
  let w' := snd (on_location gid msg w) in
  let n := next_message_id w in
  incidents w' = incidents w
  /\ emitted w' = emitted w
  /\ chats w'
     = chats w
       ++ [ {| message_id := n; chat_id := gid; text := None;
               caption := None; location := Some (lm_location msg);
               reply_markup := None |};
            {| message_id := n + 1; chat_id := gid;
               text := Some (messageText (lm_from msg) (lm_location msg));
               caption := None; location := None;
               reply_markup := Some (inlineKeyboard (lm_from msg)) |} ]
       ++ (if hd false rest then []
           else [ {| message_id := n + 1 + 1;
                     chat_id := lm_chat_id msg;
                     text := Some "Sorry, there was an error processing your location.";
                     caption := None; location := None;
                     reply_markup := None |} ]).
Proof.
  intros Hf.
  assert (Hrun : wp (on_location gid msg)
    (fun _ w' =>
       let n := next_message_id w in
       incidents w' = incidents w
       /\ emitted w' = emitted w
       /\ chats w'
          = chats w
            ++ [ {| message_id := n; chat_id := gid; text := None;
                    caption := None; location := Some (lm_location msg);
                    reply_markup := None |};
                 {| message_id := n + 1; chat_id := gid;
                    text := Some (messageText (lm_from msg) (lm_location msg));
                    caption := None; location := None;
                    reply_markup := Some (inlineKeyboard (lm_from msg)) |} ]
            ++ (if hd false rest then []
                else [ {| message_id := n + 1 + 1;
                          chat_id := lm_chat_id msg;
                          text := Some "Sorry, there was an error processing your location.";
                          caption := None; location := None;
                          reply_markup := None |} ])) w).
  { unfold on_location. destruct (lm_location msg) as [lat lon] eqn:Hloc.
    wp_run; same_script;
      rewrite <- ?app_assoc; simpl; auto. }
  exact Hrun.
Qed.

Lemma on_location_no_rollback_witness :
  let w := environment 0 [false; false; true] empty_world in
  faults w = [false; false; true]
  /\ incidents (snd (on_location sample_group sample_report w)) = []
  /\ map chat_id (chats (snd (on_location sample_group sample_report w)))
     = [sample_group; sample_group; 42].
Proof.
  intros w. split; [reflexivity|].
  destruct (on_location_no_rollback sample_group sample_report w []
              eq_refl) as (Hi & _ & Hc).
  split; [exact Hi|]. rewrite Hc. reflexivity.
Defined.

(** ** Resolving actions under failures *)

Lemma find_existsb_false {A} (f : A -> bool) l :
  List.find f l = None -> existsb f l = false.
Proof.
  induction l as [|a l IH]; simpl; [reflexivity|].
  destruct (f a); [discriminate | exact IH].
Qed.

Lemma edit_first_pointwise chatId messageId f l :
  Forall2 (fun m m' => m' = m
                       \/ (is_message chatId messageId m = true /\ m' = f m))
    l (edit_first chatId messageId f l).
Proof.
  induction l as [|m l IH]; simpl; [constructor|].
  destruct (is_message chatId messageId m) eqn:E.
  - constructor; [by right|]. apply Forall2_diag. by left.
  - constructor; [by left | exact IH].
Qed.

(** X4.  When the edit of the channel message fails, because the call
    fails or because the message does not stand in the chat, a recognized
    action changes nothing: the store, the chats and the broadcast log are
    as before, even if a document matches, and the actor is answered
    "Error updating status." (unless that answer fails too). *)
Theorem callback_edit_failure `{JsRuntime} (w : World) (cq : CallbackQuery) :
  let msg := cq_message cq in
  recognized (cq_data cq) ->
  hd false (faults w) = true
  \/ channel_message (chat_id msg) (message_id msg) w = None ->
  let out := on_callback_query cq w in
  incidents (snd out) = incidents w
  /\ chats (snd out) = chats w
  /\ emitted (snd out) = emitted w
  /\ (hd false (tl (faults w)) = false ->
      fst out = Ok tt
      /\ answers (snd out)
         = answers w ++ [(cq_id cq, "Error updating status.")]).
Proof.
  intros msg R Hfail.
  apply resolveStatus_recognized in R as (newStatus & removeButtons & E).
  assert (Hrun : wp (on_callback_query cq)
    (fun r w' =>
       incidents w' = incidents w
       /\ chats w' = chats w
       /\ emitted w' = emitted w
       /\ (hd false (tl (faults w)) = false ->
           r = Ok tt
           /\ answers w'
              = answers w ++ [(cq_id cq, "Error updating status.")])) w).
  { unfold on_callback_query. rewrite E. fold msg.
    destruct Hfail as [Hf | Hm].
    - destruct (faults w) as [|[|] rest] eqn:Hw; try discriminate.
      wp_run; same_script; repeat split; auto; discriminate.
    - apply find_existsb_false in Hm.
      wp_run; try congruence; same_script;
        repeat split; auto;
        match goal with
        | Hw : faults w = _, Hh : hd _ _ = _ |- _ =>
            rewrite Hw in Hh; subst; simpl in Hh; discriminate
        end. }
  exact Hrun.
Qed.

Lemma callback_edit_failure_witness :
  let w := set_chats (fun _ => []) reported_world in
  let cq := press "tow_other_42" in
  recognized (cq_data cq)
  /\ (hd false (faults w) = true \/ channel_message sample_group 2 w = None)
  /\ incidents (snd (on_callback_query cq w)) = [sample_incident]
  /\ answers (snd (on_callback_query cq w))
     = [("query-1", "Error updating status.")].
Proof.
  intros w cq.
  assert (R : recognized (cq_data cq)) by (left; reflexivity).
  assert (F : hd false (faults w) = true
              \/ channel_message sample_group 2 w = None)
    by (right; reflexivity).
  split; [exact R|]. split; [exact F|].
  destruct (callback_edit_failure w cq R F) as (Hi & _ & _ & Ha).
  split; [exact Hi|]. exact (proj2 (Ha eq_refl)).
Defined.

(** X5.  The gap between channel and store: when the edit succeeds and
    the store call fails, the channel message carries the audit line (and
    has lost its buttons for the terminal status) while the store is
    unchanged and nothing is broadcast; the actor is answered
    "Error updating status." (unless that answer fails too). *)
Theorem callback_store_failure `{JsRuntime} (w : World) (cq : CallbackQuery)
    (m : Message) (rest : list bool) :
  let msg := cq_message cq in
  recognized (cq_data cq) ->
  faults w = false :: true :: rest ->
  channel_message (chat_id msg) (message_id msg) w = Some m ->
  let out := on_callback_query cq w in
  incidents (snd out) = incidents w
  /\ emitted (snd out) = emitted w
  /\ (exists newStatus removeButtons,
        resolveStatus (cq_data cq) = Some (newStatus, removeButtons)
        /\ channel_message (chat_id msg) (message_id msg) (snd out)
           = Some (edited (updated_text cq newStatus (clock w))
                     (if removeButtons then None else reply_markup msg) m))
  /\ (hd false rest = false ->
      fst out = Ok tt
      /\ answers (snd out)
         = answers w ++ [(cq_id cq, "Error updating status.")]).
Proof.
  intros msg R Hf Hm.
  apply resolveStatus_recognized in R as (newStatus & removeButtons & E).
  assert (Hex : existsb (is_message (chat_id msg) (message_id msg)) (chats w)
                = true) by (apply existsb_find; eauto).
  assert (Hrun : wp (on_callback_query cq)
    (fun r w' =>
       incidents w' = incidents w
       /\ emitted w' = emitted w
       /\ chats w'
          = edit_first (chat_id msg) (message_id msg)
              (edited (updated_text cq newStatus (clock w))
                 (if removeButtons then None else reply_markup msg))
              (chats w)
       /\ (hd false rest = false ->
           r = Ok tt
           /\ answers w'
              = answers w ++ [(cq_id cq, "Error updating status.")])) w).
  { unfold on_callback_query. rewrite E. fold msg.
    wp_run; try congruence; same_script;
      repeat split; auto; discriminate. }
  unfold wp in Hrun. destruct Hrun as (Hi & He & Hc & Ha).
  split; [exact Hi|]. split; [exact He|]. split; [|exact Ha].
  exists newStatus, removeButtons. split; [exact E|].
  unfold channel_message in *. fold msg. rewrite Hc.
  rewrite find_edit_first by (intros; apply is_message_edited).
  rewrite Hm. reflexivity.
Qed.

Lemma callback_store_failure_witness :
  let w := environment 5 [false; true] reported_world in
  let cq := press "scene_cleared_42" in
  recognized (cq_data cq)
  /\ faults w = [false; true]
  /\ incidents (snd (on_callback_query cq w)) = [sample_incident]
  /\ option_map reply_markup
       (channel_message sample_group 2 (snd (on_callback_query cq w)))
     = Some None.
Proof.
  intros w cq.
  assert (R : recognized (cq_data cq)) by (right; split; reflexivity).
  split; [exact R|]. split; [reflexivity|].
  destruct (channel_message sample_group 2 w) as [m|] eqn:Hm;
    [|vm_compute in Hm; discriminate].
  destruct (callback_store_failure w cq m [] R eq_refl Hm)
    as (Hi & _ & (st & rb & E & Hc) & _).
  split; [exact Hi|].
  assert (rb = true) as -> by (vm_compute in E; congruence).
  change (chat_id (cq_message cq)) with sample_group in Hc.
  change (message_id (cq_message cq)) with 2 in Hc.
  rewrite Hc. reflexivity.
Defined.

(** X6.  Store and fan-out move together in the callback handler:
    whatever fails, either the store and the broadcast log are both as
    before, or the first document that refers to the pressed message was
    updated and exactly one [incident_updated] event was broadcast, which
    carries the updated document as it now stands in the store. *)
Theorem callback_store_and_fanout `{JsRuntime} (w : World)
    (cq : CallbackQuery) :
  let msg := cq_message cq in
  let w' := snd (on_callback_query cq w) in
  (incidents w' = incidents w /\ emitted w' = emitted w)
  \/ exists d newStatus removeButtons,
       resolveStatus (cq_data cq) = Some (newStatus, removeButtons)
       /\ findByChannelMessage (chat_id msg) (message_id msg) w = Some d
       /\ incidents w'
          = snd (Collection.findOneAndUpdate
                   (by_channel_message (message_id msg) (chat_id msg))
                   (set_status newStatus (clock w)) (incidents w))
       /\ emitted w'
          = emitted w ++ [incident_updated (set_status newStatus (clock w) d)]
       /\ findByChannelMessage (chat_id msg) (message_id msg) w'
          = Some (set_status newStatus (clock w) d).
Proof.
  intros msg.
  assert (Hrun : wp (on_callback_query cq)
    (fun _ w' =>
       (incidents w' = incidents w /\ emitted w' = emitted w)
       \/ exists d newStatus removeButtons,
            resolveStatus (cq_data cq) = Some (newStatus, removeButtons)
            /\ findByChannelMessage (chat_id msg) (message_id msg) w = Some d
            /\ incidents w'
               = snd (Collection.findOneAndUpdate
                        (by_channel_message (message_id msg) (chat_id msg))
                        (set_status newStatus (clock w)) (incidents w))
            /\ emitted w'
               = emitted w
                 ++ [incident_updated (set_status newStatus (clock w) d)]
            /\ findByChannelMessage (chat_id msg) (message_id msg) w'
               = Some (set_status newStatus (clock w) d)) w).
  { unfold on_callback_query, findByChannelMessage.
    destruct (resolveStatus (cq_data cq)) as [[newStatus removeButtons]|] eqn:E;
      [|wp_run; auto].
    fold msg.
    wp_run; auto;
      match goal with
      | Hv : fst (Collection.findOneAndUpdate _ _ _) = _ |- _ =>
          rewrite findOneAndUpdate_value in Hv
      end;
      destruct (Collection.findOne _ (incidents w)) as [d|] eqn:Hd;
      simplify_eq/=;
      try (left; split; [by rewrite (findOneAndUpdate_none _ _ _ Hd) | done]);
      right; exists d, newStatus, removeButtons;
      repeat split; auto;
      rewrite findOne_findOneAndUpdate by reflexivity;
      rewrite Hd; reflexivity. }
  exact Hrun.
Qed.

(** X7.  The callback handler posts and removes no message: whatever
    fails, the chats hold the same messages in the same order, each one
    untouched except the pressed one, whose text and keyboard may have
    been replaced. *)
Theorem callback_keeps_messages `{JsRuntime} (w : World)
    (cq : CallbackQuery) :
  let msg := cq_message cq in
  Forall2
    (fun m m' =>
       m' = m
       \/ (is_message (chat_id msg) (message_id msg) m = true
           /\ exists txt markup, m' = edited txt markup m))
    (chats w) (chats (snd (on_callback_query cq w))).
Proof.
  intros msg.
  assert (Hrun : wp (on_callback_query cq)
    (fun _ w' =>
       chats w' = chats w
       \/ exists txt markup,
            chats w'
            = edit_first (chat_id msg) (message_id msg) (edited txt markup)
                (chats w)) w).
  { unfold on_callback_query.
    destruct (resolveStatus (cq_data cq)) as [[newStatus removeButtons]|];
      [fold msg|]; wp_run; auto; right; eauto. }
  unfold wp in Hrun. destruct Hrun as [-> | (txt & markup & ->)].
  - apply Forall2_diag. by left.
  - eapply Forall2_impl; [apply edit_first_pointwise|].
    intros m m' [->|[Hm ->]]; [by left | right; eauto].
Qed.

(** ** The HTTP surface and new connections *)

Section CalmStays.

Context `{JsRuntime}.

(** A handler only consumes the fault script: a calm world stays calm. *)
Lemma delete_incident_stays_calm incidentId w :
  calm w -> calm (snd (delete_incident incidentId w)).
Proof.
  intros Hc. unfold calm in *.
  assert (Hrun : wp (delete_incident incidentId)
                   (fun _ w' => faults w' = []) w).
  { unfold delete_incident. wp_run; congruence. }
  exact Hrun.
Qed.

Lemma on_location_stays_calm gid msg w :
  calm w -> calm (snd (on_location gid msg w)).
Proof.
  intros Hc. unfold calm in *.
  assert (Hrun : wp (on_location gid msg) (fun _ w' => faults w' = []) w).
  { unfold on_location. wp_run; congruence. }
  exact Hrun.
Qed.

Lemma on_callback_query_stays_calm cq w :
  calm w -> calm (snd (on_callback_query cq w)).
Proof.
  intros Hc. unfold calm in *.
  assert (Hrun : wp (on_callback_query cq) (fun _ w' => faults w' = []) w).
  { unfold on_callback_query.
    destruct (resolveStatus (cq_data cq)) as [[newStatus removeButtons]|];
      wp_run; congruence. }
  exact Hrun.
Qed.

End CalmStays.

(** X8.  [DELETE /incidents/{id}] always answers, with 200, 404 or 500,
    and never touches a chat or answers a callback.  With 200 exactly one
    document was removed from the store and exactly one [incident_deleted]
    event carrying the requested id was broadcast; with 404 or 500 the
    store and the broadcast log are as before.  This holds whatever
    fails. *)
Theorem delete_incident_always_answers `{JsRuntime} (w : World)
    (incidentId : string) :
  let out := delete_incident incidentId w in
  chats (snd out) = chats w
  /\ answers (snd out) = answers w
  /\ exists resp,
       fst out = Ok resp
       /\ ((status_code resp = 200
            /\ emitted (snd out) = emitted w ++ [incident_deleted incidentId]
            /\ exists oid d,
                 ObjectId_fromString incidentId = Some oid
                 /\ Collection.findOne (by_id oid) (incidents w) = Some d
                 /\ incidents (snd out)
                    = snd (Collection.deleteOne (by_id oid) (incidents w))
                 /\ length (incidents w) = S (length (incidents (snd out))))
           \/ ((status_code resp = 404 \/ status_code resp = 500)
               /\ emitted (snd out) = emitted w
               /\ incidents (snd out) = incidents w)).
Proof.
  assert (Hlen : forall f l d,
             Collection.findOne f l = Some d ->
             length l = S (length (snd (Collection.deleteOne f l)))).
  { intros f l d. unfold Collection.findOne.
    induction l as [|a l IH]; simpl; [discriminate|].
    destruct (f a); simpl; [reflexivity|]. intros E. by rewrite <- IH. }
  assert (Hrun : wp (delete_incident incidentId)
    (fun r w' =>
       chats w' = chats w
       /\ answers w' = answers w
       /\ exists resp,
            r = Ok resp
            /\ ((status_code resp = 200
                 /\ emitted w' = emitted w ++ [incident_deleted incidentId]
                 /\ exists oid d,
                      ObjectId_fromString incidentId = Some oid
                      /\ Collection.findOne (by_id oid) (incidents w) = Some d
                      /\ incidents w'
                         = snd (Collection.deleteOne (by_id oid) (incidents w))
                      /\ length (incidents w) = S (length (incidents w')))
                \/ ((status_code resp = 404 \/ status_code resp = 500)
                    /\ emitted w' = emitted w
                    /\ incidents w' = incidents w))) w).
  { unfold delete_incident.
    wp_run; (split; [reflexivity|]); (split; [reflexivity|]);
      eexists; (split; [reflexivity|]); simplify_eq/=;
      try (right; split; [auto | split; reflexivity]).
    all: try match goal with
         | Hf : Collection.findOne _ _ = Some _,
           Hc : (fst (Collection.deleteOne _ _) =? 1) = false |- _ =>
             rewrite (deleteOne_count _ _ _ Hf) in Hc; discriminate
         end.
    all: left; split; [reflexivity|]; split; [reflexivity|];
      eexists _, _; split; [first [eassumption | reflexivity]|];
      split; [eassumption|];
      split; [reflexivity|]; eapply Hlen; eassumption. }
  exact Hrun.
Qed.

(** X9.  Repeating a delete request is harmless: in a calm world with
    distinct ids, right after any [DELETE] of a well-formed id the same
    request is answered 404 and leaves the world untouched, so one
    document gives rise to at most one [incident_deleted] event. *)
Theorem delete_incident_twice `{JsRuntime} (w : World)
    (incidentId : string) (oid : ObjectId) :
  ObjectId_fromString incidentId = Some oid ->
  calm w ->
  unique_ids w ->
  let w1 := snd (delete_incident incidentId w) in
  delete_incident incidentId w1
  = (Ok {| status_code := 404; body := message_body "Incident not found." |},
     w1).
Proof.
  intros Hoid Hcalm Hu w1.
  assert (Hgone : Collection.findOne (by_id oid) (incidents w1) = None).
  { destruct (Collection.findOne (by_id oid) (incidents w1)) as [j|] eqn:Hj;
      [|reflexivity].
    apply findOne_Some_in in Hj as [Hin Hid]. apply by_id_true in Hid.
    pose proof (delete_incident_calm w incidentId oid Hoid Hcalm) as Hout.
    unfold wp in Hout. fold w1 in Hout.
    destruct (Collection.findOne (by_id oid) (incidents w)) as [d|] eqn:Hd.
    - destruct Hout as (_ & Hi & _). rewrite Hi in Hin.
      exfalso. exact (deleteOne_by_id_gone oid _ j Hu Hin Hid).
    - destruct Hout as [_ Hsame]. rewrite Hsame in Hin.
      pose proof (findOne_None_all _ _ Hd j Hin) as Hf.
      apply by_id_false in Hf. contradiction. }
  pose proof (delete_incident_calm w1 incidentId oid Hoid
                (delete_incident_stays_calm incidentId w Hcalm)) as Hrun.
  unfold wp in Hrun. rewrite Hgone in Hrun. destruct Hrun as [Hr Hw].
  destruct (delete_incident incidentId w1) as [r w2]. simpl in *.
  by subst.
Qed.

Lemma delete_incident_twice_witness :
  let id := "000000000000000000000000" in
  let w1 := snd (delete_incident id reported_world) in
  ObjectId_fromString id = Some id
  /\ calm reported_world
  /\ unique_ids reported_world
  /\ fst (delete_incident id w1)
     = Ok {| status_code := 404; body := message_body "Incident not found." |}
  /\ emitted (snd (delete_incident id w1))
     = [new_incident sample_incident; incident_deleted id].
Proof.
  intros id w1.
  assert (Hu : unique_ids reported_world).
  { unfold unique_ids. vm_compute.
    constructor; [simpl; tauto | constructor]. }
  assert (Hoid : ObjectId_fromString id = Some id) by reflexivity.
  assert (Hcalm : calm reported_world) by reflexivity.
  split; [exact Hoid|]. split; [exact Hcalm|]. split; [exact Hu|].
  pose proof (delete_incident_twice reported_world id id Hoid Hcalm Hu) as E.
  cbv zeta in E. fold w1 in E. rewrite E.
  split; reflexivity.
Defined.

(** X10.  [GET /incidents] reads and never writes: the store, the chats,
    the callback answers and the broadcast log are as before whatever
    happens.  It answers 200 with every stored document, in store order,
    when the read succeeds, and 500 with a text body when it fails. *)
Theorem get_incidents_reads_only `{JsRuntime} (w : World) :
  let out := get_incidents w in
  incidents (snd out) = incidents w
  /\ chats (snd out) = chats w
  /\ answers (snd out) = answers w
  /\ emitted (snd out) = emitted w
  /\ fst out
     = Ok (if hd false (faults w)
           then {| status_code := 500;
                   body := BodyText "Error fetching incidents." |}
           else {| status_code := 200;
                   body := BodyJSON
                             (JArray (map Incident_toJSON (incidents w))) |}).
Proof.
  assert (Hrun : wp get_incidents
    (fun r w' =>
       incidents w' = incidents w
       /\ chats w' = chats w
       /\ answers w' = answers w
       /\ emitted w' = emitted w
       /\ r = Ok (if hd false (faults w)
                  then {| status_code := 500;
                          body := BodyText "Error fetching incidents." |}
                  else {| status_code := 200;
                          body := BodyJSON
                                    (JArray (map Incident_toJSON
                                               (incidents w))) |})) w).
  { unfold get_incidents. wp_run; repeat split;
      match goal with Hw : faults w = _ |- _ => rewrite Hw end;
      reflexivity. }
  exact Hrun.
Qed.

(** X11.  A new connection is served privately: nothing is broadcast and
    nothing is written.  The socket receives one [initial_incidents] event
    with every stored document when the read succeeds, and no event at all
    when it fails. *)
Theorem on_connection_sends_snapshot (w : World) :
  let out := on_connection w in
  incidents (snd out) = incidents w
  /\ emitted (snd out) = emitted w
  /\ chats (snd out) = chats w
  /\ fst out
     = Ok (if hd false (faults w) then []
           else [initial_incidents (incidents w)]).
Proof.
  assert (Hrun : wp on_connection
    (fun r w' =>
       incidents w' = incidents w
       /\ emitted w' = emitted w
       /\ chats w' = chats w
       /\ r = Ok (if hd false (faults w) then []
                  else [initial_incidents (incidents w)])) w).
  { unfold on_connection. wp_run; repeat split;
      match goal with Hw : faults w = _ |- _ => rewrite Hw end;
      reflexivity. }
  exact Hrun.
Qed.

(** ** Buttons and tokens *)

(** X12.  The buttons that the location handler attaches to the companion
    message are understood by the callback handler: for every reporter and
    every rendering of numbers, the tokens of the three buttons resolve,
    in order, to "Tow Requested: Eagles 24", "Tow Requested: Other" and
    the terminal "Scene Cleared", under the labels that say so. *)
Theorem keyboard_tokens_resolve `{JsRuntime} (from : User) :
  map (fun b => (button_text b, resolveStatus (callback_data b)))
    (concat (inlineKeyboard from))
  = [ ("Eagles 24 Tow", Some ("Tow Requested: Eagles 24", false));
      ("Other Tow", Some ("Tow Requested: Other", false));
      ("Scene Cleared", Some ("Scene Cleared", true)) ].
Proof.
  set (actor := JS.int_to_string (user_id from)).
  assert (E1 : resolveStatus ("tow_eagles_" +:+ actor)
               = Some ("Tow Requested: Eagles 24", false)).
  { change ("tow_eagles_" +:+ actor) with (token "tow" "eagles" actor).
    destruct (segments_token "tow" "eagles" actor eq_refl eq_refl).
    by apply resolveStatus_tow_eagles. }
  assert (E2 : resolveStatus ("tow_other_" +:+ actor)
               = Some ("Tow Requested: Other", false)).
  { change ("tow_other_" +:+ actor) with (token "tow" "other" actor).
    destruct (segments_token "tow" "other" actor eq_refl eq_refl) as [S0 S1].
    apply resolveStatus_tow_other; [done|]. rewrite S1. discriminate. }
  assert (E3 : resolveStatus ("scene_cleared_" +:+ actor)
               = Some ("Scene Cleared", true)).
  { change ("scene_cleared_" +:+ actor) with (token "scene" "cleared" actor).
    destruct (segments_token "scene" "cleared" actor eq_refl eq_refl).
    by apply resolveStatus_scene_cleared. }
  unfold inlineKeyboard. fold actor. cbn [concat app map button_text callback_data].
  rewrite E1, E2, E3. reflexivity.
Qed.

(** ** What the store can hold *)

Lemma resolveStatus_values data newStatus removeButtons :
  resolveStatus data = Some (newStatus, removeButtons) ->
  (newStatus = "Tow Requested: Eagles 24"
   \/ newStatus = "Tow Requested: Other"
   \/ newStatus = "Scene Cleared")
  /\ (removeButtons = true <-> newStatus = "Scene Cleared").
Proof.
  rewrite resolveStatus_segments.
  destruct (JS.eq_lit (segment 0 data) "tow");
    [destruct (JS.eq_lit (segment 1 data) "eagles")|];
    [| |destruct (JS.eq_lit (segment 0 data) "scene"
                  && JS.eq_lit (segment 1 data) "cleared")];
    intros E; simplify_eq/=;
    (split; [auto | split; intros Hx; first [reflexivity | discriminate Hx]]).
Qed.

Section StoreContents.

Context `{JsRuntime}.

Lemma on_location_store gid msg w :
  wp (on_location gid msg)
    (fun _ w' =>
       incidents w' = incidents w
       \/ exists d, incidents w' = incidents w ++ [d]
                    /\ status d = "active" /\ last_updated d = None) w.
Proof.
  unfold on_location. wp_run; auto; right; eexists; repeat split.
Qed.

Lemma delete_incident_store incidentId w :
  wp (delete_incident incidentId)
    (fun _ w' =>
       incidents w' = incidents w
       \/ exists filter,
            incidents w' = snd (Collection.deleteOne filter (incidents w))) w.
Proof.
  unfold delete_incident. wp_run; auto; right; eauto.
Qed.

Lemma handle_written gid r w :
  Forall written_by_handlers (incidents w) ->
  Forall written_by_handlers (incidents (handle gid r w)).
Proof.
  intros Hall. destruct r as [msg | cq | incidentId | |]; simpl.
  - destruct (on_location_store gid msg w) as [-> | (d & -> & Hs & Hl)];
      [exact Hall|].
    apply Forall_app. split; [exact Hall|].
    constructor; [by left | constructor].
  - destruct (on_callback_query_store w cq)
      as [-> | (newStatus & removeButtons & E & ->)]; [exact Hall|].
    apply resolveStatus_values in E as [Hst _].
    pose proof (findOneAndUpdate_pointwise
                  (by_channel_message (message_id (cq_message cq))
                     (chat_id (cq_message cq)))
                  (set_status newStatus (clock w)) (incidents w)) as Hp.
    revert Hall Hp. generalize (incidents w).
    intros l Hall Hp. induction Hp as [|d d' l l' Hd _ IH]; [constructor|].
    apply Forall_cons in Hall as [Hd0 Hall].
    constructor; [|by apply IH].
    destruct Hd as [-> | ->]; [exact Hd0|].
    right. split; [exact Hst | eexists; reflexivity].
  - destruct (delete_incident_store incidentId w) as [-> | (f & ->)];
      [exact Hall|].
    apply Forall_forall. intros j Hj. rewrite Forall_forall in Hall.
    apply Hall. apply list_elem_of_In. apply list_elem_of_In in Hj.
    by apply deleteOne_incl in Hj.
  - destruct (get_incidents_same w) as [-> | [rest ->]]; exact Hall.
  - destruct (on_connection_same w) as [-> | [rest ->]]; exact Hall.
Qed.

End StoreContents.

(** X13.  In every world the server can reach from an empty store, each
    stored document is either as the location handler wrote it, with
    status "active" and no [last_updated], or has one of the statuses
    "Tow Requested: Eagles 24", "Tow Requested: Other", "Scene Cleared"
    together with a [last_updated] time: no other status is ever stored,
    and no action returns a document to "active". *)
Theorem reachable_documents `{JsRuntime} (gid : Z) (w : World) :
  reachable gid w ->
  Forall written_by_handlers (listAll w).
Proof.
  unfold listAll. induction 1 as [w E | r w _ IH | now script w _ IH].
  - rewrite E. constructor.
  - by apply handle_written.
  - exact IH.
Qed.

Lemma reachable_documents_witness :
  let w := handle sample_group (Press (press "tow_eagles_42"))
             (handle sample_group (Report sample_report) empty_world) in
  reachable sample_group w
  /\ Forall written_by_handlers (listAll w)
  /\ map status (listAll w) = ["Tow Requested: Eagles 24"].
Proof.
  intros w.
  assert (R : reachable sample_group w).
  { apply reachable_handle, reachable_handle, reachable_start. reflexivity. }
  split; [exact R|]. split; [|reflexivity].
  exact (reachable_documents sample_group w R).
Defined.

(** ** From a report to its first action *)

Lemma find_app_none {A} (f : A -> bool) l l' :
  List.find f l = None -> List.find f (l ++ l') = List.find f l'.
Proof.
  induction l as [|a l IH]; simpl; [reflexivity|].
  destruct (f a); [discriminate | exact IH].
Qed.

Lemma findOneAndUpdate_last filter update l d :
  Collection.findOne filter l = None -> filter d = true ->
  Collection.findOneAndUpdate filter update (l ++ [d])
  = (Some (update d), l ++ [update d]).
Proof.
  unfold Collection.findOne. intros Hn Hd.
  induction l as [|a l IH]; simpl in *.
  - rewrite Hd. reflexivity.
  - destruct (filter a); [discriminate|]. rewrite (IH Hn). reflexivity.
Qed.

Lemma on_location_keeps_clock `{JsRuntime} gid msg w :
  clock (snd (on_location gid msg w)) = clock w.
Proof.
  assert (Hrun : wp (on_location gid msg) (fun _ w' => clock w' = clock w) w).
  { unfold on_location. wp_run; reflexivity. }
  exact Hrun.
Qed.

(** X14.  A report followed by a press on one of its buttons.  In a calm
    world where the id to be generated and the number of the companion
    message are not in use, after the location handler and then the
    callback handler for a recognized token on the companion message, the
    store holds the earlier documents and the new one with the resolved
    status, the broadcast log has gained [new_incident] and then
    [incident_updated] for this document, the companion message has lost
    its buttons exactly for the terminal status, and the actor was told
    the new status. *)
Theorem report_then_press `{JsRuntime} (gid : Z) (w : World)
    (msg : LocationMessage) (cq : CallbackQuery)
    (newStatus : string) (removeButtons : bool) :
  let n := next_message_id w in
  calm w ->
  existsb (by_id (ObjectIds.generate (oid_counter w))) (listAll w) = false ->
  channel_message gid (n + 1) w = None ->
  findByChannelMessage gid (n + 1) w = None ->
  chat_id (cq_message cq) = gid ->
  message_id (cq_message cq) = n + 1 ->
  resolveStatus (cq_data cq) = Some (newStatus, removeButtons) ->
  let w1 := snd (on_location gid msg w) in
  let w2 := snd (on_callback_query cq w1) in
  exists d,
    listAll w1 = listAll w ++ [d]
    /\ status d = "active"
    /\ listAll w2 = listAll w ++ [set_status newStatus (clock w) d]
    /\ emitted w2
       = emitted w
         ++ [new_incident d;
             incident_updated (set_status newStatus (clock w) d)]
    /\ option_map reply_markup (channel_message gid (n + 1) w2)
       = Some (if removeButtons then None else reply_markup (cq_message cq))
    /\ answers w2
       = answers w ++ [(cq_id cq, "Status updated to: " +:+ newStatus)].
Proof.
  intros n Hcalm Hfresh Hnomsg Hnodoc Hchat Hmid E w1 w2.
  unfold listAll in *.
  pose proof (on_location_calm gid w msg Hcalm Hfresh) as Hrun1.
  unfold wp in Hrun1. fold w1 n in Hrun1. cbv zeta in Hrun1.
  destruct Hrun1 as (_ & Hi1 & He1 & Hc1).
  pose proof (on_location_stays_calm gid msg w Hcalm) as Hcalm1.
  pose proof (on_location_keeps_clock gid msg w) as Hclock1.
  fold w1 in Hcalm1, Hclock1.
  assert (Hans1 : answers w1 = answers w).
  { assert (Hrun : wp (on_location gid msg)
                     (fun _ w' => answers w' = answers w) w)
      by (unfold on_location; wp_run; reflexivity).
    exact Hrun. }
  set (d := {| _id := ObjectIds.generate (oid_counter w);
               reporter_id := user_id (lm_from msg);
               reporter_name := first_name (lm_from msg);
               latitude := loc_latitude (lm_location msg);
               longitude := loc_longitude (lm_location msg);
               status := "active";
               telegram_message_id := n + 1;
               telegram_chat_id := gid;
               timestamp := clock w;
               last_updated := None |}) in *.
  set (companion := {| message_id := n + 1; chat_id := gid;
                       text := Some (messageText (lm_from msg)
                                       (lm_location msg));
                       caption := None; location := None;
                       reply_markup := Some (inlineKeyboard (lm_from msg)) |})
    in *.
  assert (Hm1 : channel_message (chat_id (cq_message cq))
                  (message_id (cq_message cq)) w1 = Some companion).
  { unfold channel_message in *. rewrite Hchat, Hmid, Hc1.
    rewrite (find_app_none _ _ _ Hnomsg). simpl.
    unfold is_message at 1. simpl.
    replace (n =? n + 1) with false by (symmetry; apply Z.eqb_neq; lia).
    rewrite andb_false_r.
    unfold is_message, companion. simpl. fold n.
    rewrite !Z.eqb_refl. reflexivity. }
  pose proof (on_callback_query_calm w1 cq _ _ companion Hcalm1 E Hm1)
    as Hrun2.
  unfold wp in Hrun2. fold w2 in Hrun2. cbv zeta in Hrun2.
  rewrite Hchat, Hmid, Hclock1 in Hrun2.
  destruct Hrun2 as (_ & Hc2 & Hi2 & He2 & Ha2).
  assert (Hmatch : by_channel_message (n + 1) gid d = true).
  { unfold by_channel_message, d. simpl. by rewrite !Z.eqb_refl. }
  assert (Hupd : Collection.findOneAndUpdate (by_channel_message (n + 1) gid)
                   (set_status newStatus (clock w)) (incidents w1)
                 = (Some (set_status newStatus (clock w) d),
                    incidents w ++ [set_status newStatus (clock w) d])).
  { rewrite Hi1. apply findOneAndUpdate_last; [exact Hnodoc | exact Hmatch]. }
  assert (Hfind1 : findByChannelMessage gid (n + 1) w1 = Some d).
  { unfold findByChannelMessage, Collection.findOne in *. rewrite Hi1.
    rewrite (find_app_none _ _ _ Hnodoc). simpl. by rewrite Hmatch. }
  exists d. split; [exact Hi1|]. split; [reflexivity|].
  split; [by rewrite Hi2, Hupd|].
  split; [rewrite He2, Hfind1, He1, <- app_assoc; reflexivity|].
  split.
  - unfold channel_message in *. rewrite Hc2.
    rewrite find_edit_first by (intros; apply is_message_edited).
    rewrite Hchat, Hmid in Hm1. rewrite Hm1. reflexivity.
  - by rewrite Ha2, Hans1.
Qed.

Lemma report_then_press_witness :
  let cq := press "scene_cleared_42" in
  let w2 := snd (on_callback_query cq
                   (snd (on_location sample_group sample_report
                           empty_world))) in
  calm empty_world
  /\ channel_message sample_group 2 empty_world = None
  /\ findByChannelMessage sample_group 2 empty_world = None
  /\ resolveStatus (cq_data cq) = Some ("Scene Cleared", true)
  /\ map status (listAll w2) = ["Scene Cleared"]
  /\ option_map reply_markup (channel_message sample_group 2 w2) = Some None.
Proof.
  intros cq w2.
  split; [reflexivity|]. split; [reflexivity|]. split; [reflexivity|].
  split; [reflexivity|].
  destruct (report_then_press sample_group empty_world sample_report cq
              "Scene Cleared" true eq_refl eq_refl eq_refl eq_refl
              eq_refl eq_refl eq_refl)
    as (d & _ & _ & Hl & _ & Hk & _).
  fold w2 in Hl, Hk. split; [|exact Hk].
  rewrite Hl. reflexivity.
Defined.

(* ================================================================== *)
(** * Further properties of the dashboard scripts                      *)
(* ================================================================== *)

Lemma alter_empty_iff {A} (f : A -> A) (k : string) (m : gmap string A) :
  alter f k m = ∅ <-> m = ∅.
Proof.
  split.
  - intros E. apply map_empty. intros i.
    assert (Hi : alter f k m !! i = None) by (rewrite E; apply lookup_empty).
    destruct (decide (k = i)) as [->|Hne].
    + rewrite lookup_alter_eq in Hi. by destruct (m !! i).
    + by rewrite lookup_alter_ne in Hi.
  - intros ->. apply map_empty. intros i.
    destruct (decide (k = i)) as [->|Hne].
    + rewrite lookup_alter_eq, lookup_empty. reflexivity.
    + rewrite lookup_alter_ne by done. apply lookup_empty.
Qed.

Lemma banner_display_alter (f : Marker -> Marker) k (m : gmap string Marker) :
  banner_display (alter f k m) = banner_display m.
Proof.
  unfold banner_display.
  destruct (decide (m = ∅)) as [E|E].
  - rewrite !bool_decide_eq_true_2; [reflexivity | done |].
    by apply alter_empty_iff.
  - rewrite !bool_decide_eq_false_2; [reflexivity | done |].
    by rewrite alter_empty_iff.
Qed.

Section PageInvariant.

Context `{JsRuntime}.
Import Part001.

Lemma update_tidy incident p :
  tidy p -> tidy (updateIncidentStatusInList incident p).
Proof.
  unfold tidy, updateIncidentStatusInList. destruct p; simpl.
  intros ->. by rewrite banner_display_alter.
Qed.

Lemma add_tidy incident isNew p :
  tidy p -> tidy (addIncidentToMapAndList incident isNew p).
Proof.
  intros Ht. unfold addIncidentToMapAndList. case_bool_decide.
  - by apply update_tidy.
  - reflexivity.
Qed.

Lemma remove_tidy incidentId p :
  tidy (removeIncidentFromMapAndList incidentId p).
Proof. reflexivity. Qed.

Lemma add_all_tidy isNew l p :
  tidy p ->
  tidy (fold_left (fun p incident => addIncidentToMapAndList incident isNew p)
          l p).
Proof.
  revert p. induction l as [|d l IH]; intros p Ht; simpl; [exact Ht|].
  apply IH. by apply add_tidy.
Qed.

Lemma remove_all_tidy l p :
  tidy p ->
  tidy (fold_left (fun p incident =>
                     removeIncidentFromMapAndList (_id incident) p) l p).
Proof.
  revert p. induction l as [|d l IH]; intros p Ht; simpl; [exact Ht|].
  apply IH. apply remove_tidy.
Qed.

Lemma page_step_tidy p i : tidy p -> tidy (page_step p i).
Proof.
  intros Ht. destruct i as [e | [currentIncidents|]]; simpl.
  - destruct e as [d | d | incidentId | l]; simpl.
    + by apply add_tidy.
    + by apply update_tidy.
    + apply remove_tidy.
    + unfold on_initial_incidents. cbv zeta.
      match goal with
      | |- tidy (with_lastPoll _ ?q) =>
          assert (Hq : tidy q) by (by apply add_all_tidy); exact Hq
      end.
  - unfold fetchNewIncidents. cbv zeta.
    match goal with
    | |- tidy (with_lastPoll _ ?q) =>
        assert (Hq : tidy q) by (by apply remove_all_tidy, add_all_tidy);
        exact Hq
    end.
  - exact Ht.
Qed.

Lemma page_step_consistent p i : consistent p -> consistent (page_step p i).
Proof.
  intros Hc. destruct i as [e | response]; simpl.
  - by apply on_event_consistent.
  - by apply fetch_consistent.
Qed.

Lemma page_after_invariant inputs :
  consistent (page_after inputs) /\ tidy (page_after inputs).
Proof.
  unfold page_after.
  assert (G : forall p, consistent p -> tidy p ->
                        consistent (fold_left page_step inputs p)
                        /\ tidy (fold_left page_step inputs p)).
  { induction inputs as [|i inputs IH]; intros p Hc Ht; simpl; [by split|].
    apply IH; [by apply page_step_consistent | by apply page_step_tidy]. }
  apply G; [apply initial_consistent | reflexivity].
Qed.

End PageInvariant.

Lemma list_to_set_empty_nil (l : list string) :
  (list_to_set l : gset string) = ∅ -> l = [].
Proof.
  destruct l as [|x l]; [reflexivity|]. simpl. intros E.
  assert (Hx : x ∈ (∅ : gset string)) by (rewrite <- E; set_solver).
  by apply not_elem_of_empty in Hx.
Qed.

(** X15.  Whatever Socket.IO events and poll answers the polling script
    receives after it was loaded, in whatever order, as long as they carry
    displayable incidents and ObjectId strings, its page stays coherent:
    the markers on the map, the items of the list and the set of displayed
    ids name the same incidents, no incident has two list items, and the
    "no incidents" banner is shown exactly when the list is empty.  The
    proviso is needed by the scripts, not by the page model: an id such as
    [__proto__] gets no own key in [markers], and markup in a reporter
    name can plant an element that [getElementById] finds first. *)
Theorem page_stays_coherent `{JsRuntime} (inputs : list PageInput) :
  forallb input_ok inputs = true ->
  let p := page_after inputs in
  Part001.marker_ids p = Part001.displayedIncidentIds p
  /\ Part001.item_ids p = Part001.displayedIncidentIds p
  /\ List.NoDup (map item_incident (Part001.incidentList p))
  /\ Part001.noIncidentsMessage p
     = match Part001.incidentList p with
       | [] => "block"
       | _ :: _ => "none"
       end.
Proof.
  intros _ p.
  destruct (page_after_invariant inputs) as [(Hm & Hi & Hn) Ht].
  fold p in Hm, Hi, Hn, Ht.
  split; [exact Hm|]. split; [exact Hi|]. split; [exact Hn|].
  rewrite Ht. unfold banner_display.
  unfold Part001.marker_ids, Part001.item_ids in *.
  destruct (Part001.incidentList p) as [|li l] eqn:El.
  - rewrite bool_decide_eq_true_2; [reflexivity|]. apply dom_empty_inv_L.
    rewrite Hm, <- Hi. reflexivity.
  - rewrite bool_decide_eq_false_2; [reflexivity|]. intros E.
    assert (Hd : dom (Part001.markers p) = (∅ : gset string))
      by (rewrite E; apply dom_empty_L).
    rewrite Hm, <- Hi in Hd. apply list_to_set_empty_nil in Hd.
    discriminate Hd.
Qed.

Lemma page_stays_coherent_witness :
  let inputs :=
    [ FromPoll (Some [sample_incident]);
      FromSocket (new_incident second_incident);
      FromPoll None;
      FromSocket (incident_deleted (_id sample_incident)) ] in
  let p := page_after inputs in
  forallb input_ok inputs = true
  /\ map item_incident (Part001.incidentList p) = [_id second_incident]
  /\ Part001.marker_ids p = Part001.displayedIncidentIds p
  /\ Part001.item_ids p = Part001.displayedIncidentIds p
  /\ Part001.noIncidentsMessage p = "none".
Proof.
  intros inputs p.
  assert (Hok : forallb input_ok inputs = true) by reflexivity.
  assert (Hl : map item_incident (Part001.incidentList p)
               = [_id second_incident]) by (vm_compute; reflexivity).
  destruct (page_stays_coherent inputs Hok) as (Hm & Hi & _ & Hb).
  fold p in Hm, Hi, Hb.
  split; [exact Hok|]. split; [exact Hl|].
  split; [exact Hm|]. split; [exact Hi|].
  rewrite Hb. destruct (Part001.incidentList p); [discriminate Hl|].
  reflexivity.
Defined.

(** ** Polling again, updates, snapshots *)

Lemma filter_none {A} (f : A -> bool) l :
  (forall x, In x l -> f x = false) -> List.filter f l = [].
Proof.
  induction l as [|a l IH]; simpl; intros Hf; [reflexivity|].
  rewrite (Hf a) by (by left). apply IH. intros x Hx. apply Hf. by right.
Qed.

Lemma in_ids_of d l : In d l -> _id d ∈ ids_of l.
Proof.
  intros Hin. unfold ids_of. rewrite elem_of_list_to_set, list_elem_of_In.
  by apply in_map.
Qed.

(** X16.  A poll that brings the snapshot the previous poll brought
    changes nothing: no marker, no list item, no alert sound.  Polling
    every second is therefore silent as long as the store is at rest. *)
Theorem poll_again_is_silent `{JsRuntime} (currentIncidents : list Incident)
    (p : Part001.Page) :
  Part001.fetchNewIncidents (Some currentIncidents)
    (Part001.fetchNewIncidents (Some currentIncidents) p)
  = Part001.fetchNewIncidents (Some currentIncidents) p.
Proof.
  set (p1 := Part001.fetchNewIncidents (Some currentIncidents) p).
  assert (Hlast : Part001.lastPollIncidents p1 = currentIncidents)
    by reflexivity.
  assert (Hsub : forall d, In d currentIncidents ->
                           _id d ∈ Part001.displayedIncidentIds p1).
  { intros d Hd. unfold p1. rewrite fetch_displayed.
    pose proof (in_ids_of d _ Hd). set_solver. }
  unfold Part001.fetchNewIncidents at 1. cbv zeta.
  rewrite (filter_none _ currentIncidents).
  2: { intros d Hd. apply negb_false_iff, bool_decide_eq_true_2. by apply Hsub. }
  cbn [fold_left]. rewrite Hlast.
  rewrite (filter_none _ currentIncidents).
  2: { intros d Hd. apply negb_false_iff, bool_decide_eq_true_2.
       by apply (in_ids_of d). }
  cbn [fold_left]. unfold p1, Part001.fetchNewIncidents. reflexivity.
Qed.

Section Updates.

Context `{JsRuntime}.



End Updates.



Section LaterPolls.

Context `{JsRuntime}.
Import Part001.


End LaterPolls.



(** ** The script without polling: snapshots replace the page *)

Section Part000Snapshot.

Context `{JsRuntime}.
Import Part000.









End Part000Snapshot.



(** ** An incident comes and goes *)

(** X20.  Adding and removing cancel out.  For an incident that the page
    does not show, a [new_incident] event followed by [incident_deleted]
    for its id gives back the page as it was (markers, list, displayed
    ids and banner; the alert sound has been played).  This holds in both
    scripts, on a page whose banner is up to date. *)
Theorem new_then_deleted_restores `{JsRuntime} (incident : Incident)
    (p : Part001.Page) (q : Part000.Page) :
  (_id incident ∉ Part001.displayedIncidentIds p ->
   Part001.markers p !! _id incident = None ->
   Part001.noIncidentsMessage p = banner_display (Part001.markers p) ->
   Part001.view
     (Part001.on_incident_deleted (_id incident)
        (Part001.on_new_incident incident p))
   = Part001.view p)
  /\ (Part000.markers q !! _id incident = None ->
      Part000.noIncidentsMessage q = banner_display (Part000.markers q) ->
      Part000.view
        (Part000.on_incident_deleted (_id incident)
           (Part000.on_new_incident incident q))
      = Part000.view q).
Proof.
  split.
  - destruct p as [m l d b a lp].
    cbn [Part001.markers Part001.displayedIncidentIds
         Part001.noIncidentsMessage].
    intros Hd Hm Hb.
    unfold Part001.on_incident_deleted, Part001.on_new_incident,
      Part001.addIncidentToMapAndList.
    cbn [Part001.displayedIncidentIds].
    rewrite bool_decide_eq_false_2 by exact Hd.
    cbv [Part001.removeIncidentFromMapAndList Part001.view
      Part001.updateNoIncidentsMessage Part001.with_displayed
      Part001.with_incidentList Part001.with_markers Part001.with_alert
      Part001.markers Part001.incidentList Part001.displayedIncidentIds
      Part001.noIncidentsMessage Part001.alerts Part001.lastPollIncidents].
    cbn [remove_first].
    unfold has_item. cbn [item_incident Part001.listItem].
    rewrite String.eqb_refl, delete_insert_eq, (delete_id _ _ Hm), <- Hb.
    repeat f_equal. set_solver.
  - destruct q as [m l b a].
    cbn [Part000.markers Part000.noIncidentsMessage].
    intros Hm Hb.
    assert (Hnone : bool_decide (is_Some (m !! _id incident)) = false).
    { apply bool_decide_eq_false_2. rewrite Hm. by intros [? ?]. }
    unfold Part000.on_incident_deleted, Part000.on_new_incident,
      Part000.addIncidentToMapAndList.
    cbn [Part000.markers].
    rewrite Hnone.
    cbv [Part000.removeIncidentFromMapAndList Part000.view Part000.play
      Part000.updateNoIncidentsMessage Part000.with_incidentList
      Part000.with_markers
      Part000.markers Part000.incidentList Part000.noIncidentsMessage
      Part000.alerts].
    cbn [remove_first].
    unfold has_item. cbn [item_incident Part000.listItem].
    rewrite String.eqb_refl, delete_insert_eq, (delete_id _ _ Hm), <- Hb.
    reflexivity.
Qed.

Lemma new_then_deleted_restores_witness :
  (_id sample_incident ∉ Part001.displayedIncidentIds Part001.initial)
  /\ Part001.markers Part001.initial !! _id sample_incident = None
  /\ Part001.view
       (Part001.on_incident_deleted (_id sample_incident)
          (Part001.on_new_incident sample_incident Part001.initial))
     = Part001.view Part001.initial
  /\ Part000.view
       (Part000.on_incident_deleted (_id sample_incident)
          (Part000.on_new_incident sample_incident Part000.initial))
     = Part000.view Part000.initial.
Proof.
  assert (Hd : _id sample_incident
               ∉ Part001.displayedIncidentIds Part001.initial)
    by apply not_elem_of_empty.
  assert (Hm : Part001.markers Part001.initial !! _id sample_incident = None)
    by apply lookup_empty.
  destruct (new_then_deleted_restores sample_incident Part001.initial
              Part000.initial) as [Hp Hq].
  split; [exact Hd|]. split; [exact Hm|].
  split; [exact (Hp Hd Hm eq_refl)|].
  apply Hq; [apply lookup_empty | reflexivity].
Defined.

(** ** The delete button against the server *)

Lemma message_member_body s :
  message_member (JObject [("message", JString s)]) = Some (JString s).
Proof. reflexivity. Qed.

(** The answer of the delete handler and the dialogs the button opens on
    it, case by case. *)
Lemma delete_button_cases `{JsRuntime} (JSON_parse : string -> option JSON)
    (incidentId : string) (w : World) :
  JSON_parse "Error deleting incident." = None ->
  wp (delete_incident incidentId)
    (fun res w' =>
       match res with
       | Throw => False
       | Ok r =>
           (status_code r = 200
            /\ after_fetch JSON_parse (Some r) = []
            /\ emitted w' = emitted w ++ [incident_deleted incidentId])
           \/ (status_code r = 404
               /\ (exists msg,
                     body r = message_body msg
                     /\ after_fetch JSON_parse (Some r)
                        = [ErrorDeletingIncident (Some (JString msg))])
               /\ emitted w' = emitted w
               /\ incidents w' = incidents w)
           \/ (status_code r = 500
               /\ after_fetch JSON_parse (Some r) = [FailedToConnect]
               /\ emitted w' = emitted w
               /\ incidents w' = incidents w)
       end) w.
Proof.
  intros Hparse. unfold delete_incident.
  wp_run; unfold after_fetch, response_ok, response_json;
    cbn [status_code body message_body]; rewrite ?Hparse;
    cbn [Z.leb Z.compare Pos.compare Pos.compare_cont andb negb
         message_member List.find fst snd String.eqb option_map];
    try (left; repeat split; reflexivity);
    try (right; right; repeat split; reflexivity);
    try (right; left; split; [reflexivity|];
         split; [eexists; split; reflexivity|]; split; reflexivity).
  all: match goal with
       | Hc : (fst (Collection.deleteOne ?f ?l) =? 1) = false |- _ =>
           destruct (Collection.findOne f l) as [d|] eqn:Hf;
           [ rewrite (deleteOne_count _ _ _ Hf) in Hc; discriminate
           | rewrite (deleteOne_none _ _ Hf) ]
       end.
  all: right; left; split; [reflexivity|];
    split; [eexists; split; reflexivity|]; split; reflexivity.
Qed.

(** X21.  What the user sees after pressing "Delete Incident".  If the
    user declines the confirmation, no request is made.  Otherwise the
    request reaches the delete handler, which answers with status 200, 404
    or 500, whatever fails on the server.  On 200 no dialog opens and the
    deletion was broadcast; on 404 the dialog shows the message of the
    answer; on 500, whose body is a plain text that is not JSON, the
    dialog says "Failed to connect to server", although the server did
    answer. *)
Theorem delete_button_dialogs `{JsRuntime} (JSON_parse : string -> option JSON)
    (incidentId : string) (w : World) :
  JSON_parse "Error deleting incident." = None ->
  deleteIncident JSON_parse false incidentId w = ([], w)
  /\ exists r : Response,
       let out := deleteIncident JSON_parse true incidentId w in
       fst (delete_incident incidentId w) = Ok r
       /\ snd out = snd (delete_incident incidentId w)
       /\ (status_code r = 200 \/ status_code r = 404 \/ status_code r = 500)
       /\ (status_code r = 200 ->
           fst out = []
           /\ emitted (snd out) = emitted w ++ [incident_deleted incidentId])
       /\ (status_code r = 404 ->
           (exists msg,
              body r = message_body msg
              /\ fst out = [ErrorDeletingIncident (Some (JString msg))])
           /\ emitted (snd out) = emitted w
           /\ incidents (snd out) = incidents w)
       /\ (status_code r = 500 ->
           fst out = [FailedToConnect]
           /\ emitted (snd out) = emitted w
           /\ incidents (snd out) = incidents w).
Proof.
  intros Hparse. split; [reflexivity|].
  pose proof (delete_button_cases JSON_parse incidentId w Hparse) as Hrun.
  unfold wp in Hrun. unfold deleteIncident. cbn [fst snd].
  destruct (delete_incident incidentId w) as [[r|] w'] eqn:Hout;
    cbn [fst snd] in *; [|contradiction].
  exists r. split; [reflexivity|]. split; [reflexivity|].
  destruct Hrun as [(Hs & Hd & He) | [(Hs & Hd & He & Hi) | (Hs & Hd & He & Hi)]].
  - split; [by left|]. split; [by intros _|].
    split; intros E; rewrite Hs in E; discriminate E.
  - split; [by right; left|].
    split; [intros E; rewrite Hs in E; discriminate E|].
    split; [by intros _|].
    intros E; rewrite Hs in E; discriminate E.
  - split; [by right; right|].
    split; [intros E; rewrite Hs in E; discriminate E|].
    split; [intros E; rewrite Hs in E; discriminate E|].
    by intros _.
Qed.

Lemma delete_button_dialogs_witness :
  no_json "Error deleting incident." = None
  /\ deleteIncident no_json false "zz" reported_world = ([], reported_world)
  /\ option_map status_code
       (match fst (delete_incident "zz" reported_world) with
        | Ok r => Some r
        | Throw => None
        end) = Some 500
  /\ fst (deleteIncident no_json true "zz" reported_world) = [FailedToConnect]
  /\ option_map status_code
       (match fst (delete_incident (_id second_incident) reported_world) with
        | Ok r => Some r
        | Throw => None
        end) = Some 404
  /\ fst (deleteIncident no_json true (_id second_incident) reported_world)
     = [ErrorDeletingIncident (Some (JString "Incident not found."))].
Proof.
  assert (Hparse : no_json "Error deleting incident." = None) by reflexivity.
  split; [exact Hparse|].
  destruct (delete_button_dialogs no_json "zz" reported_world Hparse)
    as [Hdeclined (r & Hr & _ & _ & _ & _ & H500)].
  destruct (delete_button_dialogs no_json (_id second_incident)
              reported_world Hparse)
    as [_ (r' & Hr' & _ & _ & _ & H404 & _)].
  split; [exact Hdeclined|].
  assert (Es : status_code r = 500).
  { assert (E : fst (delete_incident "zz" reported_world)
                = Ok {| status_code := 500;
                        body := BodyText "Error deleting incident." |})
      by reflexivity.
    rewrite E in Hr. injection Hr as <-. reflexivity. }
  assert (Er : r' = {| status_code := 404;
                       body := message_body "Incident not found." |}).
  { assert (E : fst (delete_incident (_id second_incident) reported_world)
                = Ok {| status_code := 404;
                        body := message_body "Incident not found." |})
      by reflexivity.
    rewrite E in Hr'. injection Hr' as <-. reflexivity. }
  split; [rewrite Hr; cbn [option_map]; by rewrite Es|].
  split; [exact (proj1 (H500 Es))|].
  split; [rewrite Hr'; cbn [option_map]; by rewrite Er|].
  assert (Es' : status_code r' = 404) by (rewrite Er; reflexivity).
  destruct (H404 Es') as [(msg & Hb & Hd) _].
  rewrite Er in Hb. cbn [body] in Hb. injection Hb as <-. exact Hd.
Defined.

(** ** Alert sounds *)

Section Alerts.

Context `{JsRuntime}.
Import Part001.

Lemma add_all_alerts delay l p :
  alerts (fold_left (fun p incident =>
                       addIncidentToMapAndList incident delay p) l p)
  = alerts p
    ++ replicate (size (ids_of l ∖ displayedIncidentIds p))
         (if delay then 0 else 500).
Proof.
  revert p. unfold ids_of. induction l as [|d l IH]; intros p; simpl.
  - replace ((∅ : gset string) ∖ displayedIncidentIds p) with (∅ : gset string)
      by set_solver.
    rewrite size_empty. simpl. by rewrite app_nil_r.
  - rewrite IH. unfold addIncidentToMapAndList at 1 2.
    case_bool_decide as E.
    + cbn [alerts displayedIncidentIds updateIncidentStatusInList
           with_markers with_incidentList].
      do 2 f_equal. f_equal. set_solver.
    + cbn [alerts displayedIncidentIds updateNoIncidentsMessage with_alert
           with_displayed with_incidentList with_markers].
      rewrite <- app_assoc. f_equal.
      replace (({[_id d]} ∪ list_to_set (map _id l)) ∖ displayedIncidentIds p)
        with ({[_id d]}
              ∪ (list_to_set (map _id l)
                 ∖ ({[_id d]} ∪ displayedIncidentIds p)) : gset string).
      2: { apply set_eq. intros x.
           destruct (decide (x = _id d)) as [->|Hne]; set_solver. }
      rewrite (size_union (C:=gset string) {[_id d]}) by set_solver.
      rewrite size_singleton. reflexivity.
Qed.

Lemma remove_all_alerts l p :
  alerts (fold_left (fun p incident =>
                       removeIncidentFromMapAndList (_id incident) p) l p)
  = alerts p.
Proof.
  revert p. induction l as [|d l IH]; intros p; simpl; [reflexivity|].
  by rewrite IH.
Qed.

End Alerts.

(** X22.  A poll sounds the alert once, without delay, for each incident
    of the snapshot that the page did not display, however often the
    snapshot lists it, and never for one that was displayed or removed. *)
Theorem poll_alerts_once_per_new_incident `{JsRuntime}
    (currentIncidents : list Incident) (p : Part001.Page) :
  Part001.alerts (Part001.fetchNewIncidents (Some currentIncidents) p)
  = Part001.alerts p
    ++ replicate
         (size (ids_of currentIncidents ∖ Part001.displayedIncidentIds p)) 0.
Proof.
  unfold Part001.fetchNewIncidents. cbv zeta.
  cbn [Part001.alerts Part001.with_lastPoll].
  rewrite remove_all_alerts, add_all_alerts, ids_of_filter_out.
  do 2 f_equal. f_equal. set_solver.
Qed.
